(** * RoadPayment: the payment processor of [roadpayment/payment.py]

    A shallow embedding of the module and the properties its specification
    states about it.

    Conventions of the embedding.
    - Every read of the outside world is an explicit argument of the
      operation that reads it: [secrets.token_hex] gives the argument
      [tok], each call of [datetime.now] gives a time argument.
    - An operation is a function from the processor to an outcome (a value
      or a raised exception), the processor after the call, and the list
      of effects the call had on its collaborators (events emitted,
      handlers called, lines logged, provider calls).
    - A Python object that is stored and then assigned to (a payment, a
      refund, a customer, a subscription) is the entry of the store under
      its id; an assignment to the object is an update of that entry.
    - A hook handler is modelled by what it does to its caller: it returns
      or it raises. The handlers in the registry of the processor raise
      nothing but an [Exception]; handlers that raise a [BaseException]
      that is none, such as [SystemExit], have their own registry, in the
      module [anyhook], with the emission and an operation that emits.
      Handlers that reach back into the processor and change it are
      outside the model, and so are tasks interleaved at an [await].
    - [Decimal] is a finite decimal number, a signed coefficient and an
      exponent, and [+] and [-] on it are those of the default decimal
      context: 28 significant digits, rounding half to even, [Overflow]
      raised. The special values (the infinities and the NaNs) and the sign
      of a zero are outside the model. *)

From Stdlib Require Import ZArith Lia.
From stdpp Require Import gmap strings list fin_maps sorting.

Local Open Scope Z_scope.

(** ** Enumerations *)

Inductive Currency := USD | EUR | GBP | BTC | ETH.

Inductive PaymentStatus :=
  PENDING | PROCESSING | COMPLETED | FAILED | REFUNDED | CANCELLED.

Inductive PaymentMethod := CARD | BANK | WALLET | CRYPTO.

Inductive SubscriptionStatus :=
  SUB_ACTIVE | SUB_PAUSED | SUB_CANCELLED | SUB_EXPIRED.

#[global] Instance Currency_eq_dec : EqDecision Currency.
Proof. solve_decision. Defined.
#[global] Instance PaymentStatus_eq_dec : EqDecision PaymentStatus.
Proof. solve_decision. Defined.
#[global] Instance PaymentMethod_eq_dec : EqDecision PaymentMethod.
Proof. solve_decision. Defined.
#[global] Instance SubscriptionStatus_eq_dec : EqDecision SubscriptionStatus.
Proof. solve_decision. Defined.

(** [BillingInterval] is a [str] enumeration: a member compares equal to the
    string that is its value, and [_calculate_period_end] only ever compares
    its argument with members. The embedding keeps the argument as that
    string, so that a value outside the enumeration can be passed as well. *)
Definition BillingInterval := string.
Definition DAILY : BillingInterval := "daily".
Definition WEEKLY : BillingInterval := "weekly".
Definition MONTHLY : BillingInterval := "monthly".
Definition YEARLY : BillingInterval := "yearly".

(** ** Values of the standard library *)

(** A value of type [Any], as far as the module looks at one. *)
Inductive PyVal :=
| VNone
| VBool (b : bool)
| VInt (n : Z)
| VStr (s : string).

#[global] Instance PyVal_eq_dec : EqDecision PyVal.
Proof. solve_decision. Defined.

(** Python's truth value of an optional string: [None] and the empty string
    are false. *)
Definition truthy_str (o : option string) : bool :=
  match o with
  | Some s => negb (String.eqb s "")
  | None => false
  end.

(** [a or b] on optional strings. *)
Definition or_str (a b : option string) : option string :=
  if truthy_str a then a else b.

(** [decimal.Decimal]: the number [dec_coeff * 10 ^ dec_exp]. *)
Record Decimal := mkDecimal { dec_coeff : Z; dec_exp : Z }.

#[global] Instance Decimal_eq_dec : EqDecision Decimal.
Proof. solve_decision. Defined.

(** [bool(d)]: a decimal is false exactly when it is zero. *)
Definition dec_truthy (d : Decimal) : bool := negb (dec_coeff d =? 0).

(** [a or b] where [a] is an optional decimal and [b] a decimal. *)
Definition or_dec (a : option Decimal) (b : Decimal) : Decimal :=
  match a with
  | Some d => if dec_truthy d then d else b
  | None => b
  end.

(** The exceptions the module raises or lets through. Each is an
    [Exception], what [except Exception] catches; [DecimalOverflow] is
    [decimal.Overflow]. A [BaseException] that is none, such as
    [SystemExit] or [KeyboardInterrupt], is not among them: it is what
    [anyhook.RaisesBase] stands for. *)
Inductive Exn :=
| ValueError (msg : string)
| OverflowError (msg : string)
| NotImplementedError
| DecimalOverflow
| Exception (msg : string).

(** [str(e)] *)
Definition exn_str (e : Exn) : string :=
  match e with
  | ValueError m | OverflowError m | Exception m => m
  | NotImplementedError => ""
  | DecimalOverflow => "[<class 'decimal.Overflow'>]"
  end.

Inductive Outcome (A : Type) :=
| Ret (a : A)
| Raise (e : Exn).
Arguments Ret {A} a.
Arguments Raise {A} e.

(** ** Decimal arithmetic

    [a + b] and [a - b] on [Decimal] are computed under the decimal context
    of the thread, which the module leaves at its default: 28 significant
    digits, rounding half to even, exponents from -999999 to 999999, and
    [Overflow] among the signals that raise. The result is the exact sum at
    the smaller of the two exponents, passed through the context. *)
Module ctx.
End ctx.










(** Naive [datetime] and [timedelta], both counted in microseconds: a
    datetime from 0001-01-01T00:00:00, the least one, up to
    9999-12-31T23:59:59.999999. *)
Module dt.
Definition datetime := Z.
Definition timedelta := Z.

Definition us_per_day : Z := 86400000000.
Definition max_days : Z := 999999999.
Definition max_datetime : datetime := 3652059 * us_per_day - 1.

(** [timedelta(days=n)] *)
Definition days (n : Z) : Outcome timedelta :=
  if Z.abs n <=? max_days then Ret (n * us_per_day)
  else Raise (OverflowError "days out of range").

(** [timedelta(weeks=n)]: the weeks are turned into days first. *)
Definition weeks (n : Z) : Outcome timedelta := days (7 * n).

(** [t + d] *)
Definition add (t : datetime) (d : timedelta) : Outcome datetime :=
  if (0 <=? t + d) && (t + d <=? max_datetime) then Ret (t + d)
  else Raise (OverflowError "date value out of range").

(** [start + timedelta(days=n)] *)
Definition plus_days (start : datetime) (n : Z) : Outcome datetime :=
  match days n with
  | Ret d => add start d
  | Raise e => Raise e
  end.

(** [start + timedelta(weeks=n)] *)
Definition plus_weeks (start : datetime) (n : Z) : Outcome datetime :=
  match weeks n with
  | Ret d => add start d
  | Raise e => Raise e
  end.
End dt.

(** ** The data classes *)

Abbreviation Meta := (gmap string PyVal).

Record Money := mkMoney { amount : Decimal; currency : Currency }.

Record PaymentMethodInfo := mkPaymentMethodInfo {
  pm_id : string;
  pm_type : PaymentMethod;
  pm_last_four : string;
  pm_brand : string;
  pm_exp_month : Z;
  pm_exp_year : Z;
  pm_metadata : Meta }.

Record Customer := mkCustomer {
  cus_id : string;
  cus_email : string;
  cus_name : string;
  payment_methods : list PaymentMethodInfo;
  default_payment_method : option string;
  cus_metadata : Meta;
  cus_created_at : dt.datetime }.

(** The field [error] is declared an optional string, and holds whatever
    the provider's mapping has under ["error"]; [VNone] is Python's [None]. *)
Record Payment := mkPayment {
  pay_id : string;
  pay_customer_id : string;
  pay_amount : Money;
  pay_status : PaymentStatus;
  payment_method_id : option string;
  pay_description : string;
  pay_metadata : Meta;
  pay_created_at : dt.datetime;
  completed_at : option dt.datetime;
  error : PyVal }.

Record Refund := mkRefund {
  ref_id : string;
  ref_payment_id : string;
  ref_amount : Money;
  ref_reason : string;
  ref_status : PaymentStatus;
  ref_created_at : dt.datetime }.

Record Plan := mkPlan {
  plan_id : string;
  plan_name : string;
  plan_amount : Money;
  interval : BillingInterval;
  interval_count : Z;
  trial_days : Z;
  features : list string;
  plan_metadata : Meta }.

Record Subscription := mkSubscription {
  sub_id : string;
  sub_customer_id : string;
  sub_plan_id : string;
  sub_status : SubscriptionStatus;
  current_period_start : dt.datetime;
  current_period_end : option dt.datetime;
  trial_end : option dt.datetime;
  cancelled_at : option dt.datetime;
  sub_metadata : Meta }.

(** ** Effects and the monad of operations *)

(** What an event carries. *)
Inductive Entity :=
| EPayment (p : Payment)
| ERefund (r : Refund)
| ESubscription (s : Subscription).

(** A hook handler: [handler_id] tells handlers apart in a trace, and
    [handler_call] says whether the call [handler(data)] returns ([None])
    or raises, and then which [Exception]. *)
Record Handler := mkHandler {
  handler_id : nat;
  handler_call : Entity -> option Exn }.

(** What a call does to the collaborators of the processor, in order. *)
Inductive Effect :=
| EvEmit (event : string) (data : Entity)
| EvCall (h : nat) (data : Entity)
| EvLogError (msg : string)
| EvCharge (customer : Customer) (amount : Money) (pm : string)
| EvRefund (payment : string) (amount : Money).

Section Monad.
Context {S : Type}.

Definition M (A : Type) : Type := S -> Outcome A * S * list Effect.

Definition ret {A} (a : A) : M A := fun s => (Ret a, s, []).

Definition bind {A B} (m : M A) (k : A -> M B) : M B := fun s =>
  match m s with
  | (Ret a, s1, t1) => let '(r, s2, t2) := k a s1 in (r, s2, t1 ++ t2)
  | (Raise e, s1, t1) => (Raise e, s1, t1)
  end.

Definition raise {A} (e : Exn) : M A := fun s => (Raise e, s, []).
Definition gets {A} (f : S -> A) : M A := fun s => (Ret (f s), s, []).
Definition modify (f : S -> S) : M unit := fun s => (Ret tt, f s, []).
Definition tell (e : Effect) : M unit := fun s => (Ret tt, s, [e]).

(** A value of the standard library that may raise. *)
Definition lift {A} (o : Outcome A) : M A := fun s => (o, s, []).

(** [try: body except Exception as e: handler(e)]; every [Exn] is an
    [Exception], so all of them are caught. *)
Definition try_except {A} (body : M A) (handler : Exn -> M A) : M A := fun s =>
  match body s with
  | (Ret a, s1, t1) => (Ret a, s1, t1)
  | (Raise e, s1, t1) => let '(r, s2, t2) := handler e s1 in (r, s2, t1 ++ t2)
  end.

(** [for x in l: body(x)] *)
Fixpoint for_each {A} (l : list A) (body : A -> M unit) : M unit :=
  match l with
  | [] => ret tt
  | x :: l' => bind (body x) (fun _ => for_each l' body)
  end.
End Monad.
Arguments M : clear implicits.

Definition result_of {S A} (r : Outcome A * S * list Effect) : Outcome A := r.1.1.
Definition state_of {S A} (r : Outcome A * S * list Effect) : S := r.1.2.
Definition trace_of {S A} (r : Outcome A * S * list Effect) : list Effect := r.2.

Declare Scope op_scope.
Delimit Scope op_scope with op.
Notation "x <- c1 ;; c2" := (bind c1 (fun x => c2))
  (at level 100, c1 at next level, right associativity) : op_scope.
Notation "c1 ;;; c2" := (bind c1 (fun _ => c2))
  (at level 100, right associativity) : op_scope.
Local Open Scope op_scope.

(** ** Money

    [Money] objects sit in a heap and a reference is an address, so that
    "a new Money" and "does not change its operands" can be said. The sum
    of the amounts is computed before the new object is made, so that
    nothing is made when the sum raises. *)
Module MoneyObj.
Abbreviation heap := (gmap nat Money).

#[local] Instance Money_inhabited : Inhabited Money :=
  populate (mkMoney (mkDecimal 0 0) USD).



End MoneyObj.



(** ** Insertion-ordered dictionaries

    [list_payments] reads [self.payments.values()], whose order is the
    order of insertion, so the payment store keeps it: assigning to a key
    that is present replaces its value in place, assigning to a new key
    appends. *)
Module odict.
Definition t (V : Type) : Type := list (string * V).

Fixpoint get {V} (k : string) (d : t V) : option V :=
  match d with
  | [] => None
  | (k', v) :: d' => if decide (k' = k) then Some v else get k d'
  end.

Fixpoint set {V} (k : string) (v : V) (d : t V) : t V :=
  match d with
  | [] => [(k, v)]
  | (k', v') :: d' =>
      if decide (k' = k) then (k, v) :: d' else (k', v') :: set k v d'
  end.

Definition values {V} (d : t V) : list V := d.*2.
End odict.

(** ** The provider *)

(** [charge] and [refund] answer with a pair of a success flag and a
    mapping, or raise. *)
Record PaymentProvider := mkProvider {
  charge : Customer -> Money -> string -> Outcome (bool * Meta);
  refund : string -> Money -> Outcome (bool * Meta) }.

(** The base class. *)
Definition AbstractProvider : PaymentProvider :=
  mkProvider (fun _ _ _ => Raise NotImplementedError)
             (fun _ _ => Raise NotImplementedError).

(** [MockPaymentProvider]; [token] is what [secrets.token_hex(16)] gives.
    The code draws a new token at every charge and every refund; here the
    provider answers every call with the same one, and nothing below
    depends on which token it is. Its two [logger.info] lines are left
    out. *)
Definition MockPaymentProvider (token : string) : PaymentProvider :=
  mkProvider (fun _ _ _ => Ret (true, {[ "provider_id" := VStr token ]}))
             (fun _ _ => Ret (true, {[ "provider_id" := VStr token ]})).

(** ** The processor *)

Record PaymentProcessor := mkProcessor {
  provider : PaymentProvider;
  customers : gmap string Customer;
  payments : odict.t Payment;
  refunds : gmap string Refund;
  plans : gmap string Plan;
  subscriptions : gmap string Subscription;
  hooks : gmap string (list Handler) }.

Definition event_names : list string :=
  [ "payment.created"; "payment.completed"; "payment.failed";
    "subscription.created"; "subscription.cancelled";
    "refund.created"; "refund.completed" ].

(** [__init__]; [token] is only used when no provider is given. A provider
    that is given is kept: [provider or MockPaymentProvider()] replaces
    only a provider that is false, and an object of a class that defines
    neither [__bool__] nor [__len__], as [PaymentProvider] and its mock
    do, is true. *)
Definition init (provider : option PaymentProvider) (token : string) : PaymentProcessor :=
  {| provider := default (MockPaymentProvider token) provider;
     customers := ∅;
     payments := [];
     refunds := ∅;
     plans := ∅;
     subscriptions := ∅;
     hooks := list_to_map ((fun e => (e, [])) <$> event_names) |}.

Definition with_customers (f : gmap string Customer -> gmap string Customer)
    (s : PaymentProcessor) : PaymentProcessor :=
  mkProcessor (provider s) (f (customers s)) (payments s) (refunds s) (plans s)
    (subscriptions s) (hooks s).
Definition with_payments (f : odict.t Payment -> odict.t Payment)
    (s : PaymentProcessor) : PaymentProcessor :=
  mkProcessor (provider s) (customers s) (f (payments s)) (refunds s) (plans s)
    (subscriptions s) (hooks s).
Definition with_refunds (f : gmap string Refund -> gmap string Refund)
    (s : PaymentProcessor) : PaymentProcessor :=
  mkProcessor (provider s) (customers s) (payments s) (f (refunds s)) (plans s)
    (subscriptions s) (hooks s).
Definition with_plans (f : gmap string Plan -> gmap string Plan)
    (s : PaymentProcessor) : PaymentProcessor :=
  mkProcessor (provider s) (customers s) (payments s) (refunds s) (f (plans s))
    (subscriptions s) (hooks s).
Definition with_subscriptions
    (f : gmap string Subscription -> gmap string Subscription)
    (s : PaymentProcessor) : PaymentProcessor :=
  mkProcessor (provider s) (customers s) (payments s) (refunds s) (plans s)
    (f (subscriptions s)) (hooks s).
Definition with_hooks
    (f : gmap string (list Handler) -> gmap string (list Handler))
    (s : PaymentProcessor) : PaymentProcessor :=
  mkProcessor (provider s) (customers s) (payments s) (refunds s) (plans s)
    (subscriptions s) (f (hooks s)).

Abbreviation Op := (M PaymentProcessor).

(** Assignments to the fields of a stored object. *)
Definition set_pay_status (st : PaymentStatus) (p : Payment) : Payment :=
  mkPayment (pay_id p) (pay_customer_id p) (pay_amount p) st (payment_method_id p)
    (pay_description p) (pay_metadata p) (pay_created_at p) (completed_at p) (error p).
Definition set_completed_at (t : dt.datetime) (p : Payment) : Payment :=
  mkPayment (pay_id p) (pay_customer_id p) (pay_amount p) (pay_status p)
    (payment_method_id p) (pay_description p) (pay_metadata p) (pay_created_at p)
    (Some t) (error p).
(** [payment.metadata.update(result)]: the entries of [result] win. *)
Definition update_metadata (result : Meta) (p : Payment) : Payment :=
  mkPayment (pay_id p) (pay_customer_id p) (pay_amount p) (pay_status p)
    (payment_method_id p) (pay_description p) (result ∪ pay_metadata p)
    (pay_created_at p) (completed_at p) (error p).
Definition set_error (e : PyVal) (p : Payment) : Payment :=
  mkPayment (pay_id p) (pay_customer_id p) (pay_amount p) (pay_status p)
    (payment_method_id p) (pay_description p) (pay_metadata p) (pay_created_at p)
    (completed_at p) e.
Definition set_ref_status (st : PaymentStatus) (r : Refund) : Refund :=
  mkRefund (ref_id r) (ref_payment_id r) (ref_amount r) (ref_reason r) st
    (ref_created_at r).
Definition set_cancelled (t : dt.datetime) (s : Subscription) : Subscription :=
  mkSubscription (sub_id s) (sub_customer_id s) (sub_plan_id s) SUB_CANCELLED
    (current_period_start s) (current_period_end s) (trial_end s) (Some t)
    (sub_metadata s).

(** [add_hook] *)
Definition add_hook (event : string) (handler : Handler) : Op unit :=
  hs <- gets hooks ;;
  match hs !! event with
  | Some l => modify (with_hooks <[event := l ++ [handler]]>)
  | None => ret tt
  end.

(** [handler(data)] *)
Definition call (h : Handler) (data : Entity) : Op unit :=
  tell (EvCall (handler_id h) data) ;;;
  match handler_call h data with
  | None => ret tt
  | Some e => raise e
  end.

(** [_emit]; the first effect marks the emission itself. *)
Definition _emit (event : string) (data : Entity) : Op unit :=
  tell (EvEmit event data) ;;;
  hs <- gets (fun s => default [] (hooks s !! event)) ;;
  for_each hs (fun handler =>
    try_except (call handler data)
      (fun e => tell (EvLogError ("Hook error: " +:+ exn_str e)))).

(** [create_customer] *)
Definition create_customer (tok : string) (now : dt.datetime)
    (email name : string) (metadata : Meta) : Op Customer :=
  let customer := mkCustomer ("cus_" +:+ tok) email name [] None metadata now in
  modify (with_customers <[cus_id customer := customer]>) ;;;
  ret customer.

(** [get_customer] *)
Definition get_customer (customer_id : string) : Op (option Customer) :=
  gets (fun s => customers s !! customer_id).

(** [add_payment_method]; the keyword arguments are the remaining fields
    of the method. *)
Definition add_payment_method (tok : string) (customer_id : string)
    (method_type : PaymentMethod) (last_four brand : string)
    (exp_month exp_year : Z) (metadata : Meta) : Op (option PaymentMethodInfo) :=
  c <- gets (fun s => customers s !! customer_id) ;;
  match c with
  | None => ret None
  | Some customer =>
      let method := mkPaymentMethodInfo ("pm_" +:+ tok) method_type last_four
                      brand exp_month exp_year metadata in
      let methods := payment_methods customer ++ [method] in
      let dflt :=
        if truthy_str (default_payment_method customer)
        then default_payment_method customer
        else Some (pm_id method) in
      modify (with_customers <[customer_id :=
        mkCustomer (cus_id customer) (cus_email customer) (cus_name customer)
          methods dflt (cus_metadata customer) (cus_created_at customer)]>) ;;;
      ret (Some method)
  end.

(** The object [p] is the entry of the store under its id: an assignment
    to one of its fields writes the entry. *)
Definition store_payment (key : string) (p : Payment) : Op unit :=
  modify (with_payments (odict.set key p)).
Definition store_refund (r : Refund) : Op unit :=
  modify (with_refunds <[ref_id r := r]>).
Definition store_subscription (key : string) (s : Subscription) : Op unit :=
  modify (with_subscriptions <[key := s]>).

(** [create_payment]; [t_created] is the clock when the record is built,
    [t_completed] the clock after the provider has answered. *)
Definition create_payment (tok : string) (t_created t_completed : dt.datetime)
    (customer_id : string) (amt : Decimal) (cur : Currency)
    (method_id : option string) (description : string) : Op Payment :=
  c <- gets (fun s => customers s !! customer_id) ;;
  match c with
  | None => raise (ValueError "Customer not found")
  | Some customer =>
      let pm := or_str method_id (default_payment_method customer) in
      match pm with
      | None => raise (ValueError "No payment method")
      | Some pm_id =>
          if negb (truthy_str pm) then raise (ValueError "No payment method")
          else
            let payment := mkPayment ("pay_" +:+ tok) customer_id
                             (mkMoney amt cur) PENDING pm description ∅
                             t_created None VNone in
            store_payment (pay_id payment) payment ;;;
            _emit "payment.created" (EPayment payment) ;;;
            let payment := set_pay_status PROCESSING payment in
            store_payment (pay_id payment) payment ;;;
            prov <- gets provider ;;
            tell (EvCharge customer (pay_amount payment) pm_id) ;;;
            answer <- lift (charge prov customer (pay_amount payment) pm_id) ;;
            let '(success, result) := answer in
            if success : bool then
              let payment :=
                update_metadata result
                  (set_completed_at t_completed
                     (set_pay_status COMPLETED payment)) in
              store_payment (pay_id payment) payment ;;;
              _emit "payment.completed" (EPayment payment) ;;;
              ret payment
            else
              let payment :=
                set_error (default (VStr "Payment failed") (result !! "error"))
                  (set_pay_status FAILED payment) in
              store_payment (pay_id payment) payment ;;;
              _emit "payment.failed" (EPayment payment) ;;;
              ret payment
      end
  end.

(** [create_refund]; [now] is the clock when the record is built. *)
Definition create_refund (tok : string) (now : dt.datetime)
    (payment_id : string) (amt : option Decimal) (reason : string)
    : Op (option Refund) :=
  p <- gets (fun s => odict.get payment_id (payments s)) ;;
  match p with
  | None => ret None
  | Some payment =>
      if decide (pay_status payment ≠ COMPLETED) then ret None
      else
        let refund_amount :=
          mkMoney (or_dec amt (amount (pay_amount payment)))
                  (currency (pay_amount payment)) in
        let r := mkRefund ("ref_" +:+ tok) payment_id refund_amount reason
                   PENDING now in
        store_refund r ;;;
        _emit "refund.created" (ERefund r) ;;;
        prov <- gets provider ;;
        tell (EvRefund payment_id refund_amount) ;;;
        answer <- lift (refund prov payment_id refund_amount) ;;
        let '(success, result) := answer in
        if success : bool then
          let r := set_ref_status COMPLETED r in
          store_refund r ;;;
          store_payment payment_id (set_pay_status REFUNDED payment) ;;;
          _emit "refund.completed" (ERefund r) ;;;
          ret (Some r)
        else
          let r := set_ref_status FAILED r in
          store_refund r ;;;
          ret (Some r)
  end.

(** [create_plan]; the keyword arguments are the remaining fields. *)
Definition create_plan (tok : string) (name : string) (amt : Decimal)
    (cur : Currency) (ival : BillingInterval) (count days : Z)
    (feats : list string) (metadata : Meta) : Op Plan :=
  let plan := mkPlan ("plan_" +:+ tok) name (mkMoney amt cur) ival count days
                feats metadata in
  modify (with_plans <[plan_id plan := plan]>) ;;;
  ret plan.

(** [_calculate_period_end] *)
Definition _calculate_period_end (start : dt.datetime) (ival : BillingInterval)
    (count : Z) : Op dt.datetime :=
  if decide (ival = DAILY) then
    d <- lift (dt.days count) ;; lift (dt.add start d)
  else if decide (ival = WEEKLY) then
    d <- lift (dt.weeks count) ;; lift (dt.add start d)
  else if decide (ival = MONTHLY) then
    d <- lift (dt.days (30 * count)) ;; lift (dt.add start d)
  else
    d <- lift (dt.days (365 * count)) ;; lift (dt.add start d).

(** [create_subscription]; [now] is the clock read in the body, [t_start]
    the clock read when the record is built. *)
Definition create_subscription (tok : string) (now t_start : dt.datetime)
    (customer_id plan_id : string) : Op (option Subscription) :=
  c <- gets (fun s => customers s !! customer_id) ;;
  p <- gets (fun s => plans s !! plan_id) ;;
  match c, p with
  | Some customer, Some plan =>
      period_end <- _calculate_period_end now (interval plan) (interval_count plan) ;;
      trial <- (if decide (trial_days plan = 0) then ret None
                else d <- lift (dt.days (trial_days plan)) ;;
                     t <- lift (dt.add now d) ;;
                     ret (Some t)) ;;
      let subscription := mkSubscription ("sub_" +:+ tok) customer_id plan_id
                            SUB_ACTIVE t_start (Some period_end) trial None ∅ in
      store_subscription (sub_id subscription) subscription ;;;
      _emit "subscription.created" (ESubscription subscription) ;;;
      ret (Some subscription)
  | _, _ => ret None
  end.

(** [cancel_subscription] *)
Definition cancel_subscription (now : dt.datetime) (subscription_id : string)
    : Op bool :=
  s <- gets (fun s => subscriptions s !! subscription_id) ;;
  match s with
  | None => ret false
  | Some subscription =>
      let subscription := set_cancelled now subscription in
      store_subscription subscription_id subscription ;;;
      _emit "subscription.cancelled" (ESubscription subscription) ;;;
      ret true
  end.

(** [sorted(l, key=key, reverse=True)]: descending in the key, and elements
    with equal keys stay in the order they have in [l]. *)
Fixpoint insert_desc {A} (key : A -> Z) (x : A) (l : list A) : list A :=
  match l with
  | [] => [x]
  | y :: l' => if key y <=? key x then x :: y :: l' else y :: insert_desc key x l'
  end.

Fixpoint sorted_reverse {A} (key : A -> Z) (l : list A) : list A :=
  match l with
  | [] => []
  | x :: l' => insert_desc key x (sorted_reverse key l')
  end.

(** [list_payments] *)
Definition list_payments (customer_id : option string) : Op (list Payment) :=
  ps <- gets (fun s => odict.values (payments s)) ;;
  let ps :=
    if truthy_str customer_id
    then filter (fun p => Some (pay_customer_id p) = customer_id) ps
    else ps in
  ret (sorted_reverse pay_created_at ps).

(** ** Reachable states

    One call of a public operation, whatever its arguments and its outcome. *)
Inductive step (s : PaymentProcessor) : PaymentProcessor -> Prop :=
| step_add_hook event handler :
    step s (state_of (add_hook event handler s))
| step_create_customer tok now email name metadata :
    step s (state_of (create_customer tok now email name metadata s))
| step_get_customer customer_id :
    step s (state_of (get_customer customer_id s))
| step_add_payment_method tok customer_id ty last_four brand m y metadata :
    step s (state_of (add_payment_method tok customer_id ty last_four brand m y metadata s))
| step_create_payment tok t1 t2 customer_id amt cur pm description :
    step s (state_of (create_payment tok t1 t2 customer_id amt cur pm description s))
| step_create_refund tok now payment_id amt reason :
    step s (state_of (create_refund tok now payment_id amt reason s))
| step_create_plan tok name amt cur ival count days feats metadata :
    step s (state_of (create_plan tok name amt cur ival count days feats metadata s))
| step_create_subscription tok now t_start customer_id plan_id :
    step s (state_of (create_subscription tok now t_start customer_id plan_id s))
| step_cancel_subscription now subscription_id :
    step s (state_of (cancel_subscription now subscription_id s))
| step_list_payments customer_id :
    step s (state_of (list_payments customer_id s)).

(** The states a processor goes through from its construction. *)
Inductive reachable : PaymentProcessor -> Prop :=
| reachable_init provider token : reachable (init provider token)
| reachable_step s s' : reachable s -> step s s' -> reachable s'.

(** ** Reading a trace *)

(** What the handlers of one emission do, in order: each is called, and a
    handler that raises leaves a line in the log. *)
Fixpoint handler_effects (hs : list Handler) (data : Entity) : list Effect :=
  match hs with
  | [] => []
  | h :: hs' =>
      EvCall (handler_id h) data ::
      match handler_call h data with
      | None => []
      | Some e => [EvLogError ("Hook error: " +:+ exn_str e)]
      end ++ handler_effects hs' data
  end.

Definition emit_effects (s : PaymentProcessor) (event : string) (data : Entity)
    : list Effect :=
  EvEmit event data :: handler_effects (default [] (hooks s !! event)) data.

(** The entities [event] was emitted with. *)
Definition emitted (event : string) (t : list Effect) : list Entity :=
  omap (fun e => match e with
                 | EvEmit ev d => if decide (ev = event) then Some d else None
                 | _ => None
                 end) t.

(** The handler calls. *)
Definition called (t : list Effect) : list (nat * Entity) :=
  omap (fun e => match e with EvCall h d => Some (h, d) | _ => None end) t.

(** The lines logged. *)
Definition logged (t : list Effect) : list string :=
  omap (fun e => match e with EvLogError m => Some m | _ => None end) t.

(** The charges asked of the provider. *)
Definition charged (t : list Effect) : list (Customer * Money * string) :=
  omap (fun e => match e with EvCharge c a pm => Some (c, a, pm) | _ => None end) t.

(** Python's truth value of a value: [None], [False], zero and the empty
    string are false. *)
Definition py_truthy (v : PyVal) : bool :=
  match v with
  | VNone => false
  | VBool b => b
  | VInt n => negb (n =? 0)
  | VStr s => negb (String.eqb s "")
  end.

(** ** States and providers of the examples *)

(** A provider that refuses every charge and every refund with [result]. *)
Definition failing_provider (result : Meta) : PaymentProvider :=
  mkProvider (fun _ _ _ => Ret (false, result)) (fun _ _ => Ret (false, result)).

(** A new processor in which Alice has registered and added a card. *)
Definition alice_state (prov : PaymentProvider) : PaymentProcessor :=
  state_of (add_payment_method "m1" "cus_a1" CARD "4242" "visa" 12 2025 ∅
    (state_of (create_customer "a1" 100 "alice@example.com" "Alice" ∅
      (init (Some prov) "")))).

Definition alice : Customer :=
  mkCustomer "cus_a1" "alice@example.com" "Alice"
    [mkPaymentMethodInfo "pm_m1" CARD "4242" "visa" 12 2025 ∅]
    (Some "pm_m1") ∅ 100.

(** A new processor, with the mock provider, in which Bob has registered
    and has no payment method. *)
Definition bob_state : PaymentProcessor :=
  state_of (create_customer "b2" 100 "bob@example.com" "Bob" ∅ (init None "09af")).

Definition bob : Customer :=
  mkCustomer "cus_b2" "bob@example.com" "Bob" [] None ∅ 100.

(** 99.99 *)
Definition price : Decimal := mkDecimal 9999 (-2).

(** Alice's state after a payment of 99.99 USD has gone through. *)
Definition paid_state (prov : PaymentProvider) : PaymentProcessor :=
  state_of (create_payment "p1" 200 201 "cus_a1" price USD None "Pro Plan"
    (alice_state prov)).


(** The record of Alice's payment in [paid_state]. *)
Definition alice_payment (token : string) : Payment :=
  mkPayment "pay_p1" "cus_a1" (mkMoney price USD) COMPLETED (Some "pm_m1")
    "Pro Plan" {[ "provider_id" := VStr token ]} 200 (Some 201) VNone.



(** Alice's state after a second payment, built at the same reading of the
    clock as the first. *)
Definition tied_state : PaymentProcessor :=
  state_of (create_payment "p2" 200 202 "cus_a1" price USD None "again"
    (paid_state (MockPaymentProvider "71c5"))).

(** ** Orders on keyed elements *)

(** [x] may stand before [y] in a list sorted on [key], newest first. *)
Definition newest_first {A} (key : A -> Z) (x y : A) : Prop := key y <= key x.

(** [x] is strictly newer than [y]. *)
Definition newer {A} (key : A -> Z) (x y : A) : Prop := key y < key x.

(** ** Registering handlers *)

(** A sequence of [add_hook] calls, in order. *)
Definition register_all (regs : list (string * Handler)) (s : PaymentProcessor)
    : PaymentProcessor :=
  foldl (fun s r => state_of (add_hook r.1 r.2 s)) s regs.


(** The line a handler leaves in the log when it is called with [data]. *)
Definition hook_error (data : Entity) (h : Handler) : option string :=
  (fun e => "Hook error: " +:+ exn_str e) <$> handler_call h data.

(** ** The invariant of customers *)

(** A default payment method that is set is the id of one of the
    customer's payment methods, and is not the empty string. *)
Definition default_listed (c : Customer) : Prop :=
  ∀ d, default_payment_method c = Some d ->
       d ≠ "" ∧ ∃ m, m ∈ payment_methods c ∧ pm_id m = d.

Definition customers_ok (s : PaymentProcessor) : Prop :=
  ∀ cid c, customers s !! cid = Some c -> default_listed c.

(** The computation [m] leaves the part [f] of the processor as it is. *)
Definition keeps {X A} (f : PaymentProcessor -> X) (m : Op A) : Prop :=
  ∀ s, f (state_of (m s)) = f s.

(** ** Handlers of the examples *)

(** A handler that always raises, and one that always returns. *)
Definition noisy : Handler := mkHandler 1 (fun _ => Some (Exception "boom")).
Definition quiet : Handler := mkHandler 2 (fun _ => None).

(** Alice's state with both handlers on [payment.completed], the one that
    raises first, and a registration for an event that does not exist. *)
Definition hooked_state : PaymentProcessor :=
  register_all [ ("payment.completed", noisy); ("payment.settled", noisy);
                 ("payment.completed", quiet) ]
    (alice_state (MockPaymentProvider "71c5")).

(** The names of the events emitted, in order. *)
Definition emissions (t : list Effect) : list string :=
  omap (fun e => match e with EvEmit ev _ => Some ev | _ => None end) t.

(** ** Invariants of the stores *)

(** The default payment method is the id of the first method of the
    customer, and is unset when there is none. *)
Definition default_is_first (c : Customer) : Prop :=
  default_payment_method c = pm_id <$> head (payment_methods c).

(** Validation of [create_payment] passes: the customer is known, and the
    method id passed or else the customer's default is a non-empty string. *)
Definition validated (s : PaymentProcessor) (customer_id : string)
    (method_id : option string) : Prop :=
  ∃ c, customers s !! customer_id = Some c ∧
       truthy_str (or_str method_id (default_payment_method c)) = true.

(** A payment as the store holds it between two calls. *)
Definition payment_ok (s : PaymentProcessor) (k : string) (p : Payment) : Prop :=
  pay_id p = k ∧
  is_Some (customers s !! pay_customer_id p) ∧
  truthy_str (payment_method_id p) = true ∧
  pay_status p ∈ [PROCESSING; COMPLETED; FAILED; REFUNDED] ∧
  (is_Some (completed_at p) ↔ pay_status p = COMPLETED ∨ pay_status p = REFUNDED) ∧
  (pay_status p ≠ FAILED -> error p = VNone).

Definition payments_ok (s : PaymentProcessor) : Prop :=
  NoDup (payments s).*1 ∧
  ∀ k p, odict.get k (payments s) = Some p -> payment_ok s k p.

(** A refund as the store holds it between two calls. *)
Definition refund_ok (s : PaymentProcessor) (k : string) (r : Refund) : Prop :=
  ref_id r = k ∧
  is_Some (odict.get (ref_payment_id r) (payments s)) ∧
  ref_status r ∈ [PENDING; COMPLETED; FAILED].

Definition refunds_ok (s : PaymentProcessor) : Prop :=
  ∀ k r, refunds s !! k = Some r -> refund_ok s k r.

(** A subscription as the store holds it between two calls. *)
Definition subscription_ok (s : PaymentProcessor) (k : string) (sub : Subscription)
    : Prop :=
  sub_id sub = k ∧
  is_Some (customers s !! sub_customer_id sub) ∧
  is_Some (plans s !! sub_plan_id sub) ∧
  is_Some (current_period_end sub) ∧
  (sub_status sub = SUB_ACTIVE ∧ cancelled_at sub = None ∨
   sub_status sub = SUB_CANCELLED ∧ is_Some (cancelled_at sub)).

Definition subscriptions_ok (s : PaymentProcessor) : Prop :=
  ∀ k sub, subscriptions s !! k = Some sub -> subscription_ok s k sub.

(** Nothing that [s] holds is missing from [s']: every key of every store
    is still a key, and every handler is still registered, in its place. *)
Definition grows (s s' : PaymentProcessor) : Prop :=
  (∀ k, is_Some (customers s !! k) -> is_Some (customers s' !! k)) ∧
  (∀ k, is_Some (odict.get k (payments s)) -> is_Some (odict.get k (payments s'))) ∧
  (∀ k, is_Some (refunds s !! k) -> is_Some (refunds s' !! k)) ∧
  (∀ k, is_Some (plans s !! k) -> is_Some (plans s' !! k)) ∧
  (∀ k, is_Some (subscriptions s !! k) -> is_Some (subscriptions s' !! k)) ∧
  (∀ ev hs, hooks s !! ev = Some hs -> ∃ hs', hooks s' !! ev = Some (hs ++ hs')).

(** The refunds asked of the provider. *)
Definition refund_calls (t : list Effect) : list (string * Money) :=
  omap (fun e => match e with EvRefund p a => Some (p, a) | _ => None end) t.

(** ** The dates of a subscription *)

(** What [_calculate_period_end] returns or raises. *)
Definition period_end_of (start : dt.datetime) (ival : BillingInterval) (count : Z)
    : Outcome dt.datetime :=
  if decide (ival = DAILY) then dt.plus_days start count
  else if decide (ival = WEEKLY) then dt.plus_weeks start count
  else if decide (ival = MONTHLY) then dt.plus_days start (30 * count)
  else dt.plus_days start (365 * count).

(** [now + timedelta(days=days) if days else None] *)
Definition trial_end_of (now : dt.datetime) (days : Z) : Outcome (option dt.datetime) :=
  if decide (days = 0) then Ret None
  else match dt.plus_days now days with
       | Ret t => Ret (Some t)
       | Raise e => Raise e
       end.

(** ** More states of the examples *)

(** Alice's state after her payment has been refunded. *)
Definition refunded_state : PaymentProcessor :=
  state_of (create_refund "r1" 300 "pay_p1" None "changed my mind"
    (paid_state (MockPaymentProvider "71c5"))).

(** The refund in [refunded_state]. *)
Definition alice_refund : Refund :=
  mkRefund "ref_r1" "pay_p1" (mkMoney price USD) "changed my mind" COMPLETED 300.

(** Alice's state after the plan Pro exists: 29.99 USD a month, 14 days of
    trial. *)
Definition plan_state : PaymentProcessor :=
  state_of (create_plan "pro" "Pro" (mkDecimal 2999 (-2)) USD MONTHLY 1 14
              ["Unlimited access"; "Priority support"] ∅
              (alice_state (MockPaymentProvider "71c5"))).

Definition pro_plan : Plan :=
  mkPlan "plan_pro" "Pro" (mkMoney (mkDecimal 2999 (-2)) USD) MONTHLY 1 14
    ["Unlimited access"; "Priority support"] ∅.

(** Alice's state after she has subscribed to it. *)
Definition subscribed_state : PaymentProcessor :=
  state_of (create_subscription "s1" 1000 1001 "cus_a1" "plan_pro" plan_state).

(** Her subscription. *)
Definition alice_subscription : Subscription :=
  mkSubscription "sub_s1" "cus_a1" "plan_pro" SUB_ACTIVE 1001
    (Some (1000 + 30 * dt.us_per_day)) (Some (1000 + 14 * dt.us_per_day)) None ∅.

(** The number of days [_calculate_period_end] counts for one interval. *)
Definition days_per (ival : BillingInterval) : Z :=
  if decide (ival = DAILY) then 1
  else if decide (ival = WEEKLY) then 7
  else if decide (ival = MONTHLY) then 30
  else 365.

(** ** Handlers that raise anything

    A handler of the processor above returns or raises an [Exception], and
    the guard [except Exception] of [_emit] catches what it raises. Python
    has exceptions that this guard lets through: a [BaseException] that is
    no [Exception], such as [SystemExit], [KeyboardInterrupt] and
    [asyncio.CancelledError]. This module has the handlers that may raise
    one, the registry that holds them, and [add_hook], [_emit] and an
    operation that emits, [cancel_subscription], on that registry. *)
Module anyhook.

(** What the call [handler(data)] comes to. *)
Inductive Behaviour :=
| Returns
| RaisesException (e : Exn)
| RaisesBase (name : string).

(** [callable_id] tells handlers apart in a trace. *)
Record Callable := mkCallable {
  callable_id : nat;
  callable_call : Entity -> Behaviour }.

(** How a call of the processor ends here: it returns, or a
    [BaseException] that is no [Exception] goes to its caller. *)
Inductive Ending (A : Type) :=
| Returned (a : A)
| Propagated (name : string).
Arguments Returned {A} a.
Arguments Propagated {A} name.

Abbreviation registry := (gmap string (list Callable)).

(** [self.hooks] as [__init__] leaves it. *)
Definition initial_hooks : registry :=
  list_to_map ((fun e => (e, [])) <$> event_names).

(** [add_hook] *)
Definition add_hook (event : string) (handler : Callable) (hooks : registry)
    : registry :=
  match hooks !! event with
  | Some l => <[event := l ++ [handler]]> hooks
  | None => hooks
  end.

(** The loop of [_emit]. A handler that raises an [Exception] leaves a line
    in the log and the loop goes on with the next; a handler that raises
    anything else ends the loop and the call. *)
Fixpoint for_handlers (hs : list Callable) (data : Entity)
    : Ending unit * list Effect :=
  match hs with
  | [] => (Returned tt, [])
  | handler :: hs' =>
      match callable_call handler data with
      | Returns =>
          let '(r, t) := for_handlers hs' data in
          (r, EvCall (callable_id handler) data :: t)
      | RaisesException e =>
          let '(r, t) := for_handlers hs' data in
          (r, EvCall (callable_id handler) data ::
              EvLogError ("Hook error: " +:+ exn_str e) :: t)
      | RaisesBase name =>
          (Propagated name, [EvCall (callable_id handler) data])
      end
  end.

(** [_emit]; the first effect marks the emission itself. *)
Definition _emit (event : string) (data : Entity) (hooks : registry)
    : Ending unit * list Effect :=
  let '(r, t) := for_handlers (default [] (hooks !! event)) data in
  (r, EvEmit event data :: t).

(** The part of the processor that [cancel_subscription] works on. *)
Record State := mkState {
  subscriptions : gmap string Subscription;
  hooks : registry }.

(** [cancel_subscription]: the subscription is changed before the event is
    emitted, and whatever comes out of the emission comes out of the call. *)
Definition cancel_subscription (now : dt.datetime) (subscription_id : string)
    (s : State) : Ending bool * State * list Effect :=
  match subscriptions s !! subscription_id with
  | None => (Returned false, s, [])
  | Some subscription =>
      let subscription := set_cancelled now subscription in
      let s := mkState (<[subscription_id := subscription]> (subscriptions s))
                 (hooks s) in
      match _emit "subscription.cancelled" (ESubscription subscription) (hooks s) with
      | (Returned _, t) => (Returned true, s, t)
      | (Propagated name, t) => (Propagated name, s, t)
      end
  end.



(** The line a handler leaves in the log when it is called with [data]. *)
Definition hook_error (data : Entity) (h : Callable) : option string :=
  match callable_call h data with
  | RaisesException e => Some ("Hook error: " +:+ exn_str e)
  | _ => None
  end.

(** The calls of the handlers [hs] with [data], in order. *)
Definition calls (hs : list Callable) (data : Entity) : list (nat * Entity) :=
  (fun h => (callable_id h, data)) <$> hs.

Definition noisy : Callable :=
  mkCallable 1 (fun _ => RaisesException (Exception "boom")).
Definition quiet : Callable := mkCallable 2 (fun _ => Returns).


(** The same, with the handler that raises an [Exception] first. *)
Definition noisy_state : State :=
  mkState {[ "sub_s1" := alice_subscription ]}
    (add_hook "subscription.cancelled" quiet
       (add_hook "subscription.cancelled" noisy initial_hooks)).
End anyhook.

(** ** Sequences of calls *)

(** A call of the processor, with what it reads of the outside world. *)
Inductive Call :=
| CallAddHook (event : string) (handler : Handler)
| CallCreateCustomer (tok : string) (now : dt.datetime) (email name : string)
    (metadata : Meta)
| CallGetCustomer (customer_id : string)
| CallAddPaymentMethod (tok customer_id : string) (method_type : PaymentMethod)
    (last_four brand : string) (exp_month exp_year : Z) (metadata : Meta)
| CallCreatePayment (tok : string) (t_created t_completed : dt.datetime)
    (customer_id : string) (amt : Decimal) (cur : Currency)
    (method_id : option string) (description : string)
| CallCreateRefund (tok : string) (now : dt.datetime) (payment_id : string)
    (amt : option Decimal) (reason : string)
| CallCreatePlan (tok name : string) (amt : Decimal) (cur : Currency)
    (ival : BillingInterval) (count days : Z) (feats : list string)
    (metadata : Meta)
| CallCreateSubscription (tok : string) (now t_start : dt.datetime)
    (customer_id plan_id : string)
| CallCancelSubscription (now : dt.datetime) (subscription_id : string)
| CallListPayments (customer_id : option string).

(** The processor after a call, whatever the call came to. *)
Definition after (c : Call) (s : PaymentProcessor) : PaymentProcessor :=
  match c with
  | CallAddHook event handler => state_of (add_hook event handler s)
  | CallCreateCustomer tok now email name metadata =>
      state_of (create_customer tok now email name metadata s)
  | CallGetCustomer customer_id => state_of (get_customer customer_id s)
  | CallAddPaymentMethod tok customer_id ty last_four brand m y metadata =>
      state_of (add_payment_method tok customer_id ty last_four brand m y metadata s)
  | CallCreatePayment tok t1 t2 customer_id amt cur pm description =>
      state_of (create_payment tok t1 t2 customer_id amt cur pm description s)
  | CallCreateRefund tok now payment_id amt reason =>
      state_of (create_refund tok now payment_id amt reason s)
  | CallCreatePlan tok name amt cur ival count days feats metadata =>
      state_of (create_plan tok name amt cur ival count days feats metadata s)
  | CallCreateSubscription tok now t_start customer_id plan_id =>
      state_of (create_subscription tok now t_start customer_id plan_id s)
  | CallCancelSubscription now subscription_id =>
      state_of (cancel_subscription now subscription_id s)
  | CallListPayments customer_id => state_of (list_payments customer_id s)
  end.

(** The processor after a sequence of calls made one after the other. *)
Definition after_all (cs : list Call) (s : PaymentProcessor) : PaymentProcessor :=
  foldl (fun s c => after c s) s cs.

(** The id under which a call stores a payment, when it is one that may. *)
Definition payment_id_of (c : Call) : option string :=
  match c with
  | CallCreatePayment tok _ _ _ _ _ _ _ => Some ("pay_" +:+ tok)
  | _ => None
  end.

(** Alice's state after her payment was refunded and [create_payment] drew
    the token of that payment a second time. *)
Definition reused_state : PaymentProcessor :=
  state_of (create_payment "p1" 500 501 "cus_a1" price USD None "again"
              refunded_state).

(** * Properties *)

(** ** The monad *)

Lemma bind_run {S A B} (m : M S A) (k : A -> M S B) s a s1 t1 :
  m s = (Ret a, s1, t1) ->
  bind m k s = (result_of (k a s1), state_of (k a s1), t1 ++ trace_of (k a s1)).
Proof.
  intros Hm. unfold bind. rewrite Hm.
  destruct (k a s1) as [[r s2] t2]. reflexivity.
Qed.

(** ** Emission *)

Lemma guarded_call_run h data (s : PaymentProcessor) :
  try_except (call h data)
    (fun e => tell (EvLogError ("Hook error: " +:+ exn_str e))) s
  = (Ret tt, s,
     EvCall (handler_id h) data ::
     match handler_call h data with
     | None => []
     | Some e => [EvLogError ("Hook error: " +:+ exn_str e)]
     end).
Proof.
  unfold try_except, call, bind, tell, ret, raise.
  destruct (handler_call h data); reflexivity.
Qed.

Lemma for_each_handlers hs data (s : PaymentProcessor) :
  for_each hs (fun handler =>
    try_except (call handler data)
      (fun e => tell (EvLogError ("Hook error: " +:+ exn_str e)))) s
  = (Ret tt, s, handler_effects hs data).
Proof.
  induction hs as [|h hs IH]; [reflexivity|].
  cbn [for_each handler_effects].
  rewrite (bind_run _ _ _ _ _ _ (guarded_call_run h data s)), IH.
  reflexivity.
Qed.

Lemma emit_run event data s :
  _emit event data s = (Ret tt, s, emit_effects s event data).
Proof.
  unfold _emit, emit_effects, bind, tell, gets. cbn.
  rewrite for_each_handlers. reflexivity.
Qed.

Lemma emitted_app event t1 t2 :
  emitted event (t1 ++ t2) = emitted event t1 ++ emitted event t2.
Proof. apply omap_app. Qed.

Lemma emitted_handler_effects event hs data :
  emitted event (handler_effects hs data) = [].
Proof.
  induction hs as [|h hs IH]; [reflexivity|].
  cbn [handler_effects]. destruct (handler_call h data); cbn; exact IH.
Qed.

Lemma emitted_emit_effects event s ev data :
  emitted event (emit_effects s ev data) =
  if decide (ev = event) then [data] else [].
Proof.
  unfold emit_effects. change (emitted event (?x :: ?l)) with (emitted event ([x] ++ l)).
  rewrite emitted_app, emitted_handler_effects, app_nil_r. cbn.
  destruct (decide (ev = event)); reflexivity.
Qed.

(** ** The payment store *)

Lemma odict_get_set_eq {V} k (v : V) d : odict.get k (odict.set k v d) = Some v.
Proof.
  induction d as [|[k' v'] d IH]; cbn.
  - rewrite decide_True by reflexivity. reflexivity.
  - destruct (decide (k' = k)) as [->|Hne]; cbn.
    + rewrite decide_True by reflexivity. reflexivity.
    + rewrite decide_False by assumption. exact IH.
Qed.

Lemma odict_get_set_ne {V} k k' (v : V) d :
  k ≠ k' -> odict.get k' (odict.set k v d) = odict.get k' d.
Proof.
  intros Hne. induction d as [|[k0 v0] d IH]; cbn.
  - rewrite decide_False by assumption. reflexivity.
  - destruct (decide (k0 = k)) as [->|Hne0]; cbn.
    + rewrite !decide_False by assumption. reflexivity.
    + rewrite IH. reflexivity.
Qed.

(** ** [create_payment] *)

Lemma truthy_str_Some s : s ≠ "" -> truthy_str (Some s) = true.
Proof.
  intros Hne. cbn. destruct (String.eqb_spec s ""); [contradiction|reflexivity].
Qed.

(** The whole of a call that passes validation, by the provider's answer. *)
Lemma create_payment_run s tok t1 t2 cid amt cur pm desc customer pm_id :
  customers s !! cid = Some customer ->
  or_str pm (default_payment_method customer) = Some pm_id ->
  pm_id ≠ "" ->
  let p0 := mkPayment ("pay_" +:+ tok) cid (mkMoney amt cur) PENDING (Some pm_id)
              desc ∅ t1 None VNone in
  let p1 := set_pay_status PROCESSING p0 in
  let s1 := with_payments (odict.set (pay_id p0) p1)
              (with_payments (odict.set (pay_id p0) p0) s) in
  let t := emit_effects s "payment.created" (EPayment p0) ++
           [EvCharge customer (mkMoney amt cur) pm_id] in
  create_payment tok t1 t2 cid amt cur pm desc s =
  match charge (provider s) customer (mkMoney amt cur) pm_id with
  | Ret (true, result) =>
      let p2 := update_metadata result
                  (set_completed_at t2 (set_pay_status COMPLETED p1)) in
      (Ret p2, with_payments (odict.set (pay_id p0) p2) s1,
       t ++ emit_effects s "payment.completed" (EPayment p2))
  | Ret (false, result) =>
      let p2 := set_error (default (VStr "Payment failed") (result !! "error"))
                  (set_pay_status FAILED p1) in
      (Ret p2, with_payments (odict.set (pay_id p0) p2) s1,
       t ++ emit_effects s "payment.failed" (EPayment p2))
  | Raise e => (Raise e, s1, t)
  end.
Proof.
  intros Hc Hpm Hne. cbn zeta.
  unfold create_payment, store_payment.
  unfold bind at 1. unfold gets at 1.
  rewrite Hc, Hpm, (truthy_str_Some _ Hne). cbn [negb].
  unfold bind, modify, gets, tell, lift, ret.
  rewrite emit_run. cbn -[_emit emit_effects].
  destruct (charge (provider s) customer (mkMoney amt cur) pm_id)
    as [[[] result]|e];
    cbn -[_emit emit_effects]; rewrite ?emit_run; cbn -[_emit emit_effects];
    rewrite ?app_nil_r, <- ?app_assoc; reflexivity.
Qed.

Lemma charged_app t1 t2 : charged (t1 ++ t2) = charged t1 ++ charged t2.
Proof. apply omap_app. Qed.

Lemma charged_emit_effects s event data : charged (emit_effects s event data) = [].
Proof.
  unfold emit_effects. cbn.
  induction (default [] (hooks s !! event)) as [|h hs IH]; [reflexivity|].
  cbn [handler_effects]. destruct (handler_call h data); cbn; exact IH.
Qed.

(** C1 (as amended). A call of [create_payment] that passes validation (the
    customer exists and a method id is resolved) ends as follows. If the
    provider's charge returns success, the payment returned is the one in
    the store, its status is COMPLETED, [completed_at] is set, every entry
    of the provider's mapping is in its metadata, and [payment.completed]
    is emitted exactly once, with that record, and [payment.failed] never.
    If the charge returns failure, the status is FAILED, [error] is the
    entry of the provider's mapping under ["error"], or the message
    ["Payment failed"] when there is none, so that it is non-empty exactly
    when the provider's entry is absent or is itself non-empty;
    [payment.failed] is emitted exactly once, with that record,
    [payment.completed] never, and [completed_at] stays unset. *)
Theorem create_payment_settles s tok t1 t2 cid amt cur pm desc customer pm_id result :
  customers s !! cid = Some customer ->
  or_str pm (default_payment_method customer) = Some pm_id ->
  pm_id ≠ "" ->
  let run := create_payment tok t1 t2 cid amt cur pm desc s in
  (charge (provider s) customer (mkMoney amt cur) pm_id = Ret (true, result) ->
   ∃ p, result_of run = Ret p ∧
        odict.get (pay_id p) (payments (state_of run)) = Some p ∧
        pay_status p = COMPLETED ∧
        completed_at p = Some t2 ∧
        (∀ k v, result !! k = Some v -> pay_metadata p !! k = Some v) ∧
        emitted "payment.completed" (trace_of run) = [EPayment p] ∧
        emitted "payment.failed" (trace_of run) = []) ∧
  (charge (provider s) customer (mkMoney amt cur) pm_id = Ret (false, result) ->
   ∃ p, result_of run = Ret p ∧
        odict.get (pay_id p) (payments (state_of run)) = Some p ∧
        pay_status p = FAILED ∧
        error p = default (VStr "Payment failed") (result !! "error") ∧
        (py_truthy (error p) = true ↔
         ∀ v, result !! "error" = Some v -> py_truthy v = true) ∧
        emitted "payment.failed" (trace_of run) = [EPayment p] ∧
        emitted "payment.completed" (trace_of run) = [] ∧
        completed_at p = None).
Proof.
  intros Hc Hpm Hne run. subst run.
  rewrite (create_payment_run _ _ _ _ _ _ _ _ _ _ _ Hc Hpm Hne).
  split; intros ->; cbn zeta; eexists; (split; [reflexivity|]);
    cbn [result_of state_of trace_of fst snd].
  - split; [apply odict_get_set_eq|].
    split; [reflexivity|]. split; [reflexivity|].
    split.
    { intros k v Hk. cbn. apply lookup_union_Some_l. exact Hk. }
    rewrite !emitted_app, !emitted_emit_effects. split; reflexivity.
  - split; [apply odict_get_set_eq|].
    split; [reflexivity|]. split; [reflexivity|].
    split.
    { cbn. destruct (result !! "error") as [v|]; cbn.
      - split; [intros Hv w [= <-]; exact Hv | intros Hv; apply Hv; reflexivity].
      - split; [intros _ w [=] | reflexivity]. }
    rewrite !emitted_app, !emitted_emit_effects. repeat split; reflexivity.
Qed.

(** The theorem at Alice's payment of 99.99 USD with her default card: once
    with the mock provider, once with a provider that refuses and gives no
    reason. *)
Lemma create_payment_settles_witness :
  (∃ p, result_of (create_payment "p1" 200 201 "cus_a1" price USD None "Pro Plan"
                     (alice_state (MockPaymentProvider "71c5"))) = Ret p ∧
        pay_status p = COMPLETED ∧ completed_at p = Some 201 ∧
        pay_metadata p !! "provider_id" = Some (VStr "71c5")) ∧
  (∃ p, result_of (create_payment "p1" 200 201 "cus_a1" price USD None "Pro Plan"
                     (alice_state (failing_provider ∅))) = Ret p ∧
        pay_status p = FAILED ∧ error p = VStr "Payment failed" ∧
        completed_at p = None).
Proof.
  split.
  - destruct (create_payment_settles (alice_state (MockPaymentProvider "71c5"))
      "p1" 200 201 "cus_a1" price USD None "Pro Plan" alice "pm_m1"
      {[ "provider_id" := VStr "71c5" ]})
      as [(p & Hp & _ & Hst & Hat & Hmeta & _) _];
      [vm_compute; reflexivity | reflexivity | discriminate | reflexivity |].
    exists p. repeat split; try assumption.
    apply Hmeta. vm_compute. reflexivity.
  - destruct (create_payment_settles (alice_state (failing_provider ∅))
      "p1" 200 201 "cus_a1" price USD None "Pro Plan" alice "pm_m1" ∅)
      as [_ (p & Hp & _ & Hst & Herr & _ & _ & _ & Hat)];
      [vm_compute; reflexivity | reflexivity | discriminate | reflexivity |].
    exists p. repeat split; assumption.
Defined.

(** C1 as stated fails: a provider that refuses the charge and reports an
    empty error leaves the payment FAILED with an empty [error]. *)
Lemma create_payment_empty_error :
  charge (provider (alice_state (failing_provider {[ "error" := VStr "" ]})))
    alice (mkMoney price USD) "pm_m1"
  = Ret (false, {[ "error" := VStr "" ]}) ∧
  ∃ p, result_of (create_payment "p1" 200 201 "cus_a1" price USD None "Pro Plan"
                    (alice_state (failing_provider {[ "error" := VStr "" ]})))
       = Ret p ∧
       pay_status p = FAILED ∧ error p = VStr "" ∧ py_truthy (error p) = false.
Proof.
  split; [reflexivity|]. eexists. split; [vm_compute; reflexivity|].
  repeat split.
Qed.

(** C10. When the customer exists and a non-empty [payment_method_id] is
    passed, [create_payment] takes that id as it is, whatever the
    customer's [payment_methods] are: the payment record is in the store
    with this method id, and the provider is asked exactly one charge, for
    this customer, this amount and this id. *)
Theorem create_payment_accepts_any_method s tok t1 t2 cid amt cur method desc customer :
  customers s !! cid = Some customer ->
  method ≠ "" ->
  let run := create_payment tok t1 t2 cid amt cur (Some method) desc s in
  charged (trace_of run) = [(customer, mkMoney amt cur, method)] ∧
  ∃ p, odict.get ("pay_" +:+ tok) (payments (state_of run)) = Some p ∧
       pay_customer_id p = cid ∧
       pay_amount p = mkMoney amt cur ∧
       payment_method_id p = Some method ∧
       ∀ p', result_of run = Ret p' -> p' = p.
Proof.
  intros Hc Hne run. subst run.
  assert (Hpm : or_str (Some method) (default_payment_method customer) = Some method).
  { unfold or_str. rewrite (truthy_str_Some _ Hne). reflexivity. }
  rewrite (create_payment_run _ _ _ _ _ _ _ _ _ _ _ Hc Hpm Hne). cbn zeta.
  destruct (charge (provider s) customer (mkMoney amt cur) method)
    as [[[] result]|e]; cbn [result_of state_of trace_of fst snd];
    rewrite ?charged_app, ?charged_emit_effects; (split; [reflexivity|]);
    eexists; (split; [apply odict_get_set_eq|]);
    repeat (split; [reflexivity|]); intros p' [=]; congruence.
Qed.

(** The theorem at a customer who has no payment method at all and a method
    id that exists nowhere. *)
Lemma create_payment_accepts_any_method_witness :
  payment_methods bob = [] ∧
  charged (trace_of (create_payment "p7" 200 201 "cus_b2" price EUR
                       (Some "pm_nowhere") "" bob_state))
  = [(bob, mkMoney price EUR, "pm_nowhere")] ∧
  ∃ p, odict.get "pay_p7" (payments (state_of
         (create_payment "p7" 200 201 "cus_b2" price EUR (Some "pm_nowhere") ""
            bob_state)))
       = Some p ∧
       payment_method_id p = Some "pm_nowhere".
Proof.
  split; [reflexivity|].
  destruct (create_payment_accepts_any_method bob_state "p7" 200 201 "cus_b2"
              price EUR "pm_nowhere" "" bob) as (Hch & p & Hp & _ & _ & Hm & _);
    [vm_compute; reflexivity | discriminate |].
  split; [exact Hch|]. exists p. split; assumption.
Defined.

(** ** [create_refund] *)

(** A call that is turned away does nothing. *)
Lemma create_refund_none s tok now pid amt reason :
  (odict.get pid (payments s) = None ∨
   ∃ p, odict.get pid (payments s) = Some p ∧ pay_status p ≠ COMPLETED) ->
  create_refund tok now pid amt reason s = (Ret None, s, []).
Proof.
  intros H. unfold create_refund, bind, gets.
  destruct H as [-> | (p & -> & Hst)]; [reflexivity|].
  rewrite decide_True by assumption. reflexivity.
Qed.

(** The whole of a call on a completed payment, by the provider's answer. *)
Lemma create_refund_run s tok now pid amt reason payment :
  odict.get pid (payments s) = Some payment ->
  pay_status payment = COMPLETED ->
  let refund_amount :=
    mkMoney (or_dec amt (amount (pay_amount payment)))
            (currency (pay_amount payment)) in
  let r := mkRefund ("ref_" +:+ tok) pid refund_amount reason PENDING now in
  let s1 := with_refunds <[ref_id r := r]> s in
  let t := emit_effects s "refund.created" (ERefund r) ++
           [EvRefund pid refund_amount] in
  create_refund tok now pid amt reason s =
  match refund (provider s) pid refund_amount with
  | Ret (true, _) =>
      let r' := set_ref_status COMPLETED r in
      (Ret (Some r'),
       with_payments (odict.set pid (set_pay_status REFUNDED payment))
         (with_refunds <[ref_id r := r']> s1),
       t ++ emit_effects s "refund.completed" (ERefund r'))
  | Ret (false, _) =>
      let r' := set_ref_status FAILED r in
      (Ret (Some r'), with_refunds <[ref_id r := r']> s1, t)
  | Raise e => (Raise e, s1, t)
  end.
Proof.
  intros Hp Hst. cbn zeta.
  unfold create_refund, store_refund, store_payment.
  unfold bind at 1. unfold gets at 1. rewrite Hp.
  rewrite decide_False by (intros Hne; apply Hne; exact Hst).
  unfold bind, modify, gets, tell, lift, ret.
  rewrite emit_run. cbn -[_emit emit_effects].
  destruct (refund (provider s) pid _) as [[[] result]|e];
    cbn -[_emit emit_effects]; rewrite ?emit_run; cbn -[_emit emit_effects];
    rewrite ?app_nil_r, <- ?app_assoc; reflexivity.
Qed.



(** C3. [create_refund] returns [None] if and only if the payment id is
    unknown or the payment's status is not COMPLETED; when it does, the
    processor is left as it was (no refund record is made) and nothing is
    emitted, nor is the provider called. *)
Theorem create_refund_none_iff s tok now pid amt reason :
  let run := create_refund tok now pid amt reason s in
  (result_of run = Ret None ↔
   odict.get pid (payments s) = None ∨
   ∃ p, odict.get pid (payments s) = Some p ∧ pay_status p ≠ COMPLETED) ∧
  (result_of run = Ret None -> state_of run = s ∧ trace_of run = []).
Proof.
  intros run. subst run.
  assert (Hiff : result_of (create_refund tok now pid amt reason s) = Ret None ↔
    odict.get pid (payments s) = None ∨
    ∃ p, odict.get pid (payments s) = Some p ∧ pay_status p ≠ COMPLETED).
  { split.
    - intros Hres. destruct (odict.get pid (payments s)) as [p|] eqn:Hp; [|by left].
      right. exists p. split; [reflexivity|]. intros Hst.
      rewrite (create_refund_run _ _ _ _ _ _ _ Hp Hst) in Hres.
      cbn zeta in Hres.
      destruct (refund (provider s) pid _) as [[[] ?]|?]; discriminate Hres.
    - intros H. rewrite (create_refund_none _ _ _ _ _ _ H). reflexivity. }
  split; [exact Hiff|].
  intros Hres. apply Hiff in Hres.
  rewrite (create_refund_none _ _ _ _ _ _ Hres). split; reflexivity.
Qed.

(** What the refund of a completed payment is made for: always in the
    payment's currency; the payment's whole amount when no amount is passed;
    the amount passed when it is not zero; and the payment's whole amount
    again when the amount passed is zero. *)
Lemma create_refund_amount s tok now pid amt reason payment r :
  odict.get pid (payments s) = Some payment ->
  pay_status payment = COMPLETED ->
  result_of (create_refund tok now pid amt reason s) = Ret (Some r) ->
  currency (ref_amount r) = currency (pay_amount payment) ∧
  (amt = None -> amount (ref_amount r) = amount (pay_amount payment)) ∧
  (∀ d, amt = Some d -> dec_coeff d ≠ 0 -> amount (ref_amount r) = d) ∧
  (∀ d, amt = Some d -> dec_coeff d = 0 ->
     amount (ref_amount r) = amount (pay_amount payment)).
Proof.
  intros Hp Hst. rewrite (create_refund_run _ _ _ _ _ _ _ Hp Hst). cbn zeta.
  assert (Hamt : ∀ d, amt = Some d ->
    or_dec amt (amount (pay_amount payment)) =
    if decide (dec_coeff d = 0) then amount (pay_amount payment) else d).
  { intros d ->. unfold or_dec, dec_truthy.
    destruct (Z.eqb_spec (dec_coeff d) 0) as [Hz|Hz]; cbn.
    - rewrite decide_True by assumption. reflexivity.
    - rewrite decide_False by assumption. reflexivity. }
  destruct (refund (provider s) pid _) as [[[] ?]|?]; cbn; intros [= <-]; cbn;
    (split; [reflexivity|]); (split; [intros ->; reflexivity|]);
    split; intros d Hd Hc; rewrite (Hamt d Hd);
    first [rewrite decide_False by assumption | rewrite decide_True by assumption];
    reflexivity.
Qed.

(** C4 at an amount of zero. The refund of Alice's payment of 99.99 USD,
    asked with [amount=Decimal("0")], is made for 99.99 USD: the amount
    passed is read through [amount or payment.amount.amount], which takes
    a zero for an amount left out. *)
Theorem create_refund_zero_amount :
  ∃ r, result_of (create_refund "r1" 300 "pay_p1" (Some (mkDecimal 0 0)) ""
                    (paid_state (MockPaymentProvider "71c5"))) = Ret (Some r) ∧
       ref_amount r = mkMoney price USD ∧
       amount (ref_amount r) ≠ mkDecimal 0 0.
Proof.
  eexists. split; [vm_compute; reflexivity|]. split; [reflexivity|]. discriminate.
Qed.

(** ** Money *)


















(** ** The period of a subscription *)

Lemma plus_days_in_range start n :
  Z.abs n <= dt.max_days ->
  0 <= start + n * dt.us_per_day <= dt.max_datetime ->
  dt.plus_days start n = Ret (start + n * dt.us_per_day).
Proof.
  intros Hn Hr. unfold dt.plus_days, dt.days, dt.add.
  destruct (Z.leb_spec (Z.abs n) dt.max_days); [|lia].
  destruct (Z.leb_spec 0 (start + n * dt.us_per_day)); [|lia].
  destruct (Z.leb_spec (start + n * dt.us_per_day) dt.max_datetime); [|lia].
  reflexivity.
Qed.

Lemma lift_bind_plus start o (self : PaymentProcessor) :
  (d <- lift o ;; lift (dt.add start d)) self =
  (match o with Ret d => dt.add start d | Raise e => Raise e end, self, []).
Proof. unfold bind, lift. destruct o; reflexivity. Qed.

(** C6. [_calculate_period_end] is a function of [start], [interval] and
    [count] alone: it leaves the processor as it is, has no effect, and
    gives the same result on every processor. For ["daily"] the result is
    [start + count days]; for ["weekly"], [start + count weeks], which is
    [start + 7 * count days]; for ["monthly"], [start + 30 * count days];
    for ["yearly"], and for any other value, [start + 365 * count days].
    The sum [start + n days] is the instant [n] days after [start] whenever
    [n] is a number of days a timedelta can hold and that instant is a
    datetime, and raises [OverflowError] otherwise, as Python's does. *)
Theorem calculate_period_end_spec (self : PaymentProcessor) start ival count :
  let run := _calculate_period_end start ival count self in
  (state_of run = self ∧ trace_of run = [] ∧
   ∀ self', result_of (_calculate_period_end start ival count self') = result_of run) ∧
  (ival = DAILY -> result_of run = dt.plus_days start count) ∧
  (ival = WEEKLY -> result_of run = dt.plus_weeks start count ∧
                    result_of run = dt.plus_days start (7 * count)) ∧
  (ival = MONTHLY -> result_of run = dt.plus_days start (30 * count)) ∧
  (ival = YEARLY -> result_of run = dt.plus_days start (365 * count)) ∧
  (ival ≠ DAILY -> ival ≠ WEEKLY -> ival ≠ MONTHLY ->
   result_of run = dt.plus_days start (365 * count)) ∧
  (∀ n, Z.abs n <= dt.max_days ->
        0 <= start + n * dt.us_per_day <= dt.max_datetime ->
        dt.plus_days start n = Ret (start + n * dt.us_per_day)) ∧
  (∀ n, (dt.max_days < Z.abs n ∨ start + n * dt.us_per_day < 0 ∨
         dt.max_datetime < start + n * dt.us_per_day) ->
        ∃ msg, dt.plus_days start n = Raise (OverflowError msg)).
Proof.
  intros run. subst run.
  assert (Hrun : ∀ self', _calculate_period_end start ival count self' =
    (if decide (ival = DAILY) then dt.plus_days start count
     else if decide (ival = WEEKLY) then dt.plus_weeks start count
     else if decide (ival = MONTHLY) then dt.plus_days start (30 * count)
     else dt.plus_days start (365 * count), self', [])).
  { intros self'. unfold _calculate_period_end.
    repeat case_decide; apply lift_bind_plus. }
  rewrite !Hrun. cbn [result_of state_of trace_of fst snd].
  split; [split; [reflexivity|]; split; [reflexivity|];
          intros self'; rewrite Hrun; reflexivity|].
  split; [intros ->; reflexivity|].
  split; [intros ->; split; reflexivity|].
  split; [intros ->; reflexivity|].
  split; [intros ->; reflexivity|].
  split; [intros H1 H2 H3; rewrite !decide_False by assumption; reflexivity|].
  split; [apply plus_days_in_range|].
  intros n Hn. unfold dt.plus_days, dt.days, dt.add.
  destruct (Z.leb_spec (Z.abs n) dt.max_days); [|eexists; reflexivity].
  destruct (Z.leb_spec 0 (start + n * dt.us_per_day)); [|eexists; reflexivity].
  destruct (Z.leb_spec (start + n * dt.us_per_day) dt.max_datetime);
    [lia | eexists; reflexivity].
Qed.

(** ** [sorted] with [reverse=True] *)

Section Sorted.
Context {A : Type} (key : A -> Z).

Lemma insert_desc_perm x l : insert_desc key x l ≡ₚ x :: l.
Proof.
  induction l as [|y l IH]; cbn; [reflexivity|].
  destruct (key y <=? key x); [reflexivity|].
  rewrite IH. apply Permutation_swap.
Qed.

Lemma sorted_reverse_perm l : sorted_reverse key l ≡ₚ l.
Proof.
  induction l as [|x l IH]; cbn; [reflexivity|].
  rewrite insert_desc_perm, IH. reflexivity.
Qed.

Lemma insert_desc_sorted x l :
  StronglySorted (newest_first key) l ->
  StronglySorted (newest_first key) (insert_desc key x l).
Proof.
  induction 1 as [|y l Hl IH Hy]; cbn.
  - repeat constructor.
  - destruct (Z.leb_spec (key y) (key x)) as [Hle|Hgt].
    + constructor; [constructor; assumption|].
      constructor; [exact Hle|].
      eapply Forall_impl; [exact Hy|]. unfold newest_first. intros z Hz. lia.
    + constructor; [exact IH|].
      rewrite insert_desc_perm. constructor; [|exact Hy].
      unfold newest_first. lia.
Qed.

Lemma sorted_reverse_sorted l :
  StronglySorted (newest_first key) (sorted_reverse key l).
Proof.
  induction l as [|x l IH]; cbn; [constructor|].
  apply insert_desc_sorted, IH.
Qed.

(** Stability: the elements of one key keep the order they had. *)
Lemma insert_desc_stable k x l :
  filter (fun a => key a = k) (insert_desc key x l) =
  filter (fun a => key a = k) (x :: l).
Proof.
  induction l as [|y l IH]; cbn [insert_desc]; [reflexivity|].
  destruct (Z.leb_spec (key y) (key x)) as [Hle|Hgt]; [reflexivity|].
  rewrite filter_cons, IH, !filter_cons.
  destruct (decide (key y = k)) as [Hy|Hy], (decide (key x = k)) as [Hx|Hx];
    try reflexivity.
  lia.
Qed.

Lemma sorted_reverse_stable k l :
  filter (fun a => key a = k) (sorted_reverse key l) =
  filter (fun a => key a = k) l.
Proof.
  induction l as [|x l IH]; cbn [sorted_reverse]; [reflexivity|].
  rewrite insert_desc_stable, !filter_cons, IH. reflexivity.
Qed.

Lemma sorted_strict l :
  StronglySorted (newest_first key) l ->
  NoDup (key <$> l) ->
  StronglySorted (newer key) l.
Proof.
  induction 1 as [|x l Hl IH Hx]; cbn; intros Hnd; [constructor|].
  apply NoDup_cons in Hnd as [Hnotin Hnd].
  constructor; [apply IH, Hnd|].
  rewrite Forall_forall in Hx |- *. intros y Hy.
  specialize (Hx y Hy). unfold newest_first in Hx. unfold newer.
  assert (key y ≠ key x); [|lia].
  intros Heq. apply Hnotin. rewrite <- Heq.
  apply list_elem_of_fmap. exists y. split; [reflexivity | exact Hy].
Qed.

Lemma sorted_reverse_strict l :
  NoDup (key <$> l) -> StronglySorted (newer key) (sorted_reverse key l).
Proof.
  intros Hnd. apply sorted_strict; [apply sorted_reverse_sorted|].
  rewrite sorted_reverse_perm. exact Hnd.
Qed.
End Sorted.

(** ** [list_payments] *)

(** Asked with the empty string, [list_payments] does what it does asked
    with nothing: [if customer_id:] lets neither through to the filter. *)
Lemma list_payments_empty_id s : list_payments (Some "") s = list_payments None s.
Proof. reflexivity. Qed.

(** C7 (as amended). On every payment store, [list_payments] only reads:
    the processor is left as it is and nothing is emitted. Its result is
    sorted on [created_at], newest first; payments created at the same
    instant keep the order of the store, and where no two payments of the
    store were created at the same instant the order is strict. With a
    non-empty [customer_id] the result holds exactly the payments of the
    store whose [customer_id] is that one; with none it holds all the
    payments of the store. *)
Theorem list_payments_spec s customer_id :
  ∃ l, list_payments customer_id s = (Ret l, s, []) ∧
       StronglySorted (newest_first pay_created_at) l ∧
       (∀ cid, customer_id = Some cid -> cid ≠ "" ->
          l ≡ₚ filter (fun p => pay_customer_id p = cid) (odict.values (payments s)) ∧
          ∀ t, filter (fun p => pay_created_at p = t) l =
               filter (fun p => pay_created_at p = t)
                 (filter (fun p => pay_customer_id p = cid)
                    (odict.values (payments s)))) ∧
       (customer_id = None ->
          l ≡ₚ odict.values (payments s) ∧
          ∀ t, filter (fun p => pay_created_at p = t) l =
               filter (fun p => pay_created_at p = t) (odict.values (payments s))) ∧
       (NoDup (pay_created_at <$> odict.values (payments s)) ->
          StronglySorted (newer pay_created_at) l).
Proof.
  eexists. split; [reflexivity|].
  split; [apply sorted_reverse_sorted|].
  split; [|split].
  - intros cid -> Hne. rewrite (truthy_str_Some _ Hne).
    rewrite (list_filter_iff (fun p => Some (pay_customer_id p) = Some cid)
               (fun p => pay_customer_id p = cid))
      by (intros p; split; congruence).
    split; [apply sorted_reverse_perm | intros t; apply sorted_reverse_stable].
  - intros ->. cbn [truthy_str].
    split; [apply sorted_reverse_perm | intros t; apply sorted_reverse_stable].
  - intros Hnd. apply sorted_reverse_strict.
    destruct (truthy_str customer_id); [|exact Hnd].
    induction (odict.values (payments s)) as [|p l IH]; [constructor|].
    rewrite fmap_cons in Hnd. apply NoDup_cons in Hnd as [Hp Hnd].
    rewrite filter_cons. case_decide; [|apply IH, Hnd].
    rewrite fmap_cons. apply NoDup_cons. split; [|apply IH, Hnd].
    intros Hin. apply Hp.
    apply list_elem_of_fmap in Hin as (q & Hq & Hin).
    apply list_elem_of_fmap. exists q. split; [exact Hq|].
    apply list_elem_of_filter in Hin. apply Hin.
Qed.

(** C7 as stated fails twice. Asked with the empty string for
    [customer_id], [list_payments] gives Alice's payment, whose customer is
    not the empty string. And two payments created at the same reading of
    the clock come one after the other, so the order is not strict. *)
Lemma list_payments_empty_id_and_ties :
  (∃ p, result_of (list_payments (Some "") (paid_state (MockPaymentProvider "71c5")))
        = Ret [p] ∧
        pay_customer_id p = "cus_a1") ∧
  (∃ p q, result_of (list_payments None tied_state) = Ret [p; q] ∧
          pay_id p = "pay_p1" ∧ pay_id q = "pay_p2" ∧
          pay_created_at p = pay_created_at q).
Proof.
  split.
  - eexists. split; [vm_compute; reflexivity|]. reflexivity.
  - do 2 eexists. split; [vm_compute; reflexivity|]. repeat split.
Qed.

(** ** Hooks *)

Lemma add_hook_run event h s :
  add_hook event h s =
  (Ret tt,
   match hooks s !! event with
   | Some l => with_hooks <[event := l ++ [h]]> s
   | None => s
   end, []).
Proof.
  unfold add_hook, bind, gets. destruct (hooks s !! event); reflexivity.
Qed.

Lemma add_hook_lookup event h s ev :
  hooks (state_of (add_hook event h s)) !! ev =
  match hooks s !! ev with
  | Some l => Some (if decide (event = ev) then l ++ [h] else l)
  | None => None
  end.
Proof.
  rewrite add_hook_run. cbn [state_of fst snd].
  destruct (decide (event = ev)) as [->|Hne].
  - destruct (hooks s !! ev) as [l|] eqn:Hl; cbn; [|exact Hl].
    apply lookup_insert_eq.
  - destruct (hooks s !! event) as [l|] eqn:Hl; cbn.
    + rewrite lookup_insert_ne by assumption. destruct (hooks s !! ev); reflexivity.
    + destruct (hooks s !! ev); reflexivity.
Qed.


Lemma init_hooks provider token ev :
  ev ∈ event_names -> hooks (init provider token) !! ev = Some [].
Proof.
  intros Hev. unfold event_names in Hev.
  repeat (apply elem_of_cons in Hev as [-> | Hev]; [vm_compute; reflexivity|]).
  apply elem_of_nil in Hev. contradiction.
Qed.



Lemma cancel_subscription_run now sid s :
  cancel_subscription now sid s =
  match subscriptions s !! sid with
  | None => (Ret false, s, [])
  | Some sub =>
      (Ret true, with_subscriptions <[sid := set_cancelled now sub]> s,
       emit_effects s "subscription.cancelled" (ESubscription (set_cancelled now sub)))
  end.
Proof.
  unfold cancel_subscription, store_subscription.
  unfold bind at 1. unfold gets at 1.
  destruct (subscriptions s !! sid) as [sub|]; [|reflexivity].
  unfold bind, modify, ret. rewrite emit_run. cbn -[emit_effects].
  rewrite app_nil_r. reflexivity.
Qed.

(** ** Handlers that raise anything *)








(** The same cancellation with a handler that raises an [Exception] in the
    place of the one that exits: both handlers are called, one line is
    logged, and the call returns [True]. *)
Example cancel_subscription_noisy :
  (anyhook.cancel_subscription 2000 "sub_s1" anyhook.noisy_state).1.1 =
    anyhook.Returned true ∧
  called (anyhook.cancel_subscription 2000 "sub_s1" anyhook.noisy_state).2 =
    [(1%nat, ESubscription (set_cancelled 2000 alice_subscription));
     (2%nat, ESubscription (set_cancelled 2000 alice_subscription))] ∧
  logged (anyhook.cancel_subscription 2000 "sub_s1" anyhook.noisy_state).2 =
    ["Hook error: boom"].
Proof. repeat split; vm_compute; reflexivity. Qed.

(** ** What an operation leaves alone *)

Section Keeps.
Context {X : Type} (f : PaymentProcessor -> X).

Lemma keeps_bind {A B} (m : Op A) (k : A -> Op B) :
  keeps f m -> (∀ a, keeps f (k a)) -> keeps f (bind m k).
Proof.
  intros Hm Hk s. unfold bind. specialize (Hm s).
  destruct (m s) as [[[a|e] s1] t1]; cbn in Hm; [|exact Hm].
  specialize (Hk a s1). destruct (k a s1) as [[r s2] t2]. cbn in Hk |- *.
  congruence.
Qed.

Lemma keeps_ret {A} (a : A) : keeps f (ret a).
Proof. intros s. reflexivity. Qed.

Lemma keeps_raise {A} e : keeps f (raise (A := A) e).
Proof. intros s. reflexivity. Qed.

Lemma keeps_gets {A} (g : PaymentProcessor -> A) : keeps f (gets g).
Proof. intros s. reflexivity. Qed.

Lemma keeps_tell e : keeps f (tell e).
Proof. intros s. reflexivity. Qed.

Lemma keeps_lift {A} (o : Outcome A) : keeps f (lift o).
Proof. intros s. reflexivity. Qed.

Lemma keeps_emit event data : keeps f (_emit event data).
Proof. intros s. rewrite emit_run. reflexivity. Qed.

Lemma keeps_modify g : (∀ s, f (g s) = f s) -> keeps f (modify g).
Proof. intros Hg s. apply Hg. Qed.
End Keeps.

Ltac keeps_step :=
  first
    [ apply keeps_emit
    | apply keeps_bind; [|intros ?]
    | apply keeps_ret
    | apply keeps_raise
    | apply keeps_gets
    | apply keeps_tell
    | apply keeps_lift
    | apply keeps_modify; intros ?; reflexivity
    | match goal with
      | |- keeps _ (match ?x with _ => _ end) => destruct x
      end ].

Ltac keeps_customers op :=
  unfold op, store_payment, store_refund, store_subscription; repeat keeps_step.

Lemma add_hook_keeps_customers event h : keeps customers (add_hook event h).
Proof. keeps_customers add_hook. Qed.

Lemma get_customer_keeps_customers cid : keeps customers (get_customer cid).
Proof. keeps_customers get_customer. Qed.

Lemma create_payment_keeps_customers tok t1 t2 cid amt cur pm desc :
  keeps customers (create_payment tok t1 t2 cid amt cur pm desc).
Proof. keeps_customers create_payment. Qed.

Lemma create_refund_keeps_customers tok now pid amt reason :
  keeps customers (create_refund tok now pid amt reason).
Proof. keeps_customers create_refund. Qed.

Lemma create_plan_keeps_customers tok name amt cur ival count days feats metadata :
  keeps customers (create_plan tok name amt cur ival count days feats metadata).
Proof. keeps_customers create_plan. Qed.

Lemma calculate_period_end_keeps_customers start ival count :
  keeps customers (_calculate_period_end start ival count).
Proof. keeps_customers _calculate_period_end. Qed.

Lemma create_subscription_keeps_customers tok now t_start cid plan :
  keeps customers (create_subscription tok now t_start cid plan).
Proof.
  unfold create_subscription, store_subscription.
  repeat first [apply calculate_period_end_keeps_customers | keeps_step].
Qed.

Lemma cancel_subscription_keeps_customers now sid :
  keeps customers (cancel_subscription now sid).
Proof. keeps_customers cancel_subscription. Qed.

Lemma list_payments_keeps_customers cid : keeps customers (list_payments cid).
Proof. keeps_customers list_payments. Qed.

(** ** Customers and their default payment method *)

Lemma create_customer_run tok now email name metadata s :
  create_customer tok now email name metadata s =
  (Ret (mkCustomer ("cus_" +:+ tok) email name [] None metadata now),
   with_customers
     <["cus_" +:+ tok := mkCustomer ("cus_" +:+ tok) email name [] None metadata now]> s,
   []).
Proof. reflexivity. Qed.

Lemma add_payment_method_run tok cid ty last_four brand m y metadata s :
  add_payment_method tok cid ty last_four brand m y metadata s =
  match customers s !! cid with
  | None => (Ret None, s, [])
  | Some c =>
      let method := mkPaymentMethodInfo ("pm_" +:+ tok) ty last_four brand m y
                      metadata in
      (Ret (Some method),
       with_customers <[cid :=
         mkCustomer (cus_id c) (cus_email c) (cus_name c)
           (payment_methods c ++ [method])
           (if truthy_str (default_payment_method c)
            then default_payment_method c else Some (pm_id method))
           (cus_metadata c) (cus_created_at c)]> s,
       [])
  end.
Proof.
  unfold add_payment_method, bind, gets.
  destruct (customers s !! cid); reflexivity.
Qed.

Lemma customers_ok_same s s' :
  customers s' = customers s -> customers_ok s -> customers_ok s'.
Proof. unfold customers_ok. intros ->. trivial. Qed.

Lemma step_customers_ok s s' : customers_ok s -> step s s' -> customers_ok s'.
Proof.
  intros Hok Hstep.
  destruct Hstep;
    try (eapply customers_ok_same; [|exact Hok];
         first [ apply add_hook_keeps_customers
               | apply get_customer_keeps_customers
               | apply create_payment_keeps_customers
               | apply create_refund_keeps_customers
               | apply create_plan_keeps_customers
               | apply create_subscription_keeps_customers
               | apply cancel_subscription_keeps_customers
               | apply list_payments_keeps_customers ]).
  - rewrite create_customer_run. cbn [state_of fst snd].
    intros cid c. cbn -[String.append]. rewrite lookup_insert.
    case_decide; [|apply Hok].
    intros [= <-] d. cbn. discriminate.
  - rewrite add_payment_method_run.
    destruct (customers s !! customer_id) as [c|] eqn:Hc; [|exact Hok].
    cbn [state_of fst snd]. intros cid c'. cbn -[String.append].
    rewrite lookup_insert. case_decide; [|apply Hok].
    intros [= <-] d. cbn -[String.append].
    destruct (truthy_str (default_payment_method c)).
    + intros Hd. destruct (Hok _ _ Hc d Hd) as (Hne & m0 & Hm0 & Hid).
      split; [exact Hne|].
      exists m0. split; [|exact Hid]. apply elem_of_app. left. exact Hm0.
    + intros [= <-]. split; [discriminate|]. eexists.
      split; [apply elem_of_app; right; apply list_elem_of_singleton; reflexivity|].
      reflexivity.
Qed.

Lemma reachable_customers_ok s : reachable s -> customers_ok s.
Proof.
  induction 1 as [provider token | s s' _ IH Hstep].
  - intros cid c. cbn. rewrite lookup_empty. discriminate.
  - exact (step_customers_ok _ _ IH Hstep).
Qed.

(** C9. In every state the processor reaches from its construction, the
    default payment method of every customer, when set, is the id of one
    of that customer's payment methods, and every operation keeps it so.
    In such a state, [add_payment_method] on a customer who has no default
    appends the new method and makes its id the default; on a customer who
    has a default it appends the new method and keeps the default. *)
Theorem default_payment_method_listed s :
  reachable s ->
  (∀ cid c d, customers s !! cid = Some c -> default_payment_method c = Some d ->
     ∃ m, m ∈ payment_methods c ∧ pm_id m = d) ∧
  (∀ s', step s s' -> customers_ok s') ∧
  (∀ tok cid ty last_four brand m y metadata c,
     customers s !! cid = Some c ->
     let run := add_payment_method tok cid ty last_four brand m y metadata s in
     ∃ method c',
       result_of run = Ret (Some method) ∧
       customers (state_of run) !! cid = Some c' ∧
       payment_methods c' = payment_methods c ++ [method] ∧
       (default_payment_method c = None ->
        default_payment_method c' = Some (pm_id method)) ∧
       (∀ d, default_payment_method c = Some d ->
        default_payment_method c' = Some d)).
Proof.
  intros Hs. pose proof (reachable_customers_ok s Hs) as Hok.
  split; [intros cid c d Hc Hd; apply (Hok _ _ Hc d Hd)|].
  split; [intros s'; apply step_customers_ok, Hok|].
  intros tok cid ty last_four brand m y metadata c Hc run. subst run.
  rewrite add_payment_method_run, Hc. cbn zeta.
  do 2 eexists. split; [reflexivity|].
  cbn [state_of fst snd]. split; [cbn -[String.append]; apply lookup_insert_eq|].
  split; [reflexivity|]. cbn -[String.append]. split.
  - intros ->. reflexivity.
  - intros d Hd. destruct (Hok _ _ Hc d Hd) as (Hne & _).
    rewrite Hd, (truthy_str_Some _ Hne). reflexivity.
Qed.

(** The theorem at Bob, who has just registered, and his first method. *)
Lemma default_payment_method_listed_witness :
  ∃ method c',
    result_of (add_payment_method "m9" "cus_b2" BANK "0001" "" 0 0 ∅ bob_state)
      = Ret (Some method) ∧
    customers (state_of (add_payment_method "m9" "cus_b2" BANK "0001" "" 0 0 ∅
                           bob_state)) !! "cus_b2" = Some c' ∧
    payment_methods c' = [method] ∧
    pm_id method = "pm_m9" ∧
    default_payment_method c' = Some "pm_m9".
Proof.
  destruct (default_payment_method_listed bob_state) as (_ & _ & Hadd).
  { apply (reachable_step (init None "09af") bob_state (reachable_init None "09af")).
    apply step_create_customer. }
  destruct (Hadd "m9" "cus_b2" BANK "0001" ""%string 0 0 ∅ bob)
    as (method & c' & Hr & Hc' & Hpm & Hnone & _); [vm_compute; reflexivity|].
  exists method, c'. split; [exact Hr|]. split; [exact Hc'|].
  split; [exact Hpm|].
  assert (Hid : pm_id method = "pm_m9") by (injection Hr as <-; reflexivity).
  split; [exact Hid|]. rewrite <- Hid. apply Hnone. reflexivity.
Defined.

(** ** The scenarios of the specification *)

(** Alice registers, adds a card and pays 99.99 USD: the payment is
    COMPLETED, its metadata has the provider's id, and [payment.created]
    then [payment.completed] are emitted, once each. *)
Example scenario_payment :
  ∃ p, create_payment "p1" 200 201 "cus_a1" price USD None "Pro Plan"
         (alice_state (MockPaymentProvider "71c5"))
       = (Ret p, paid_state (MockPaymentProvider "71c5"),
          [ EvEmit "payment.created"
              (EPayment (mkPayment "pay_p1" "cus_a1" (mkMoney price USD) PENDING
                           (Some "pm_m1") "Pro Plan" ∅ 200 None VNone));
            EvCharge alice (mkMoney price USD) "pm_m1";
            EvEmit "payment.completed" (EPayment p) ]) ∧
       p = alice_payment "71c5" ∧
       pay_status p = COMPLETED ∧
       pay_metadata p !! "provider_id" = Some (VStr "71c5").
Proof.
  eexists. split; [vm_compute; reflexivity|]. repeat split.
Qed.

(** With a handler that raises and one that returns on
    [payment.completed], the payment goes through all the same: both are
    called, in the order of registration, and the failure is logged in
    between. The registration for an unknown event is dropped. *)
Example scenario_failing_handler :
  ∃ p, result_of (create_payment "p1" 200 201 "cus_a1" price USD None "Pro Plan"
                    hooked_state) = Ret p ∧
       pay_status p = COMPLETED ∧
       hooks hooked_state !! "payment.settled" = None ∧
       emissions (trace_of (create_payment "p1" 200 201 "cus_a1" price USD None
                              "Pro Plan" hooked_state))
       = ["payment.created"; "payment.completed"] ∧
       _emit "payment.completed" (EPayment p) hooked_state
       = (Ret tt, hooked_state,
          [ EvEmit "payment.completed" (EPayment p);
            EvCall 1 (EPayment p);
            EvLogError "Hook error: boom";
            EvCall 2 (EPayment p) ]).
Proof.
  eexists. split; [vm_compute; reflexivity|]. repeat split.
Qed.

(** A plan of 29.99 USD a month with 14 days of trial, and Alice's
    subscription to it: ACTIVE, the trial ends 14 days from now and the
    period 30 days from now. *)
Example scenario_subscription :
  ∃ sub, result_of (create_subscription "s1" 1000 1001 "cus_a1" "plan_pro"
                      (state_of (create_plan "pro" "Pro" (mkDecimal 2999 (-2)) USD
                                   MONTHLY 1 14 ["Unlimited access"; "Priority support"] ∅
                                   (alice_state (MockPaymentProvider "71c5")))))
         = Ret (Some sub) ∧
         sub_status sub = SUB_ACTIVE ∧
         current_period_start sub = 1001 ∧
         trial_end sub = Some (1000 + 14 * dt.us_per_day) ∧
         current_period_end sub = Some (1000 + 30 * dt.us_per_day).
Proof.
  eexists. split; [vm_compute; reflexivity|]. repeat split.
Qed.

(** A payment for a customer with no method, and none passed, is refused
    before anything is stored or asked of the provider. *)
Example scenario_no_payment_method :
  create_payment "p7" 200 201 "cus_b2" price USD None "" bob_state
  = (Raise (ValueError "No payment method"), bob_state, []).
Proof. vm_compute. reflexivity. Qed.

(** With the base class for a provider, the charge raises: the exception
    goes through to the caller, and the payment stays in the store,
    PROCESSING. *)
Example scenario_abstract_provider :
  ∃ p, result_of (create_payment "p1" 200 201 "cus_a1" price USD None ""
                    (alice_state AbstractProvider)) = Raise NotImplementedError ∧
       odict.get "pay_p1" (payments (state_of
         (create_payment "p1" 200 201 "cus_a1" price USD None ""
            (alice_state AbstractProvider)))) = Some p ∧
       pay_status p = PROCESSING.
Proof.
  eexists. split; [reflexivity|]. split; [vm_compute; reflexivity|]. reflexivity.
Qed.

(** * Further properties *)

(** ** Validation in [create_payment] *)

Lemma truthy_str_inv o : truthy_str o = true -> ∃ x, o = Some x ∧ x ≠ "".
Proof.
  destruct o as [x|]; cbn; [|discriminate].
  destruct (String.eqb_spec x ""); [discriminate|]. intros _. eauto.
Qed.

Lemma create_payment_unknown_customer s tok t1 t2 cid amt cur pm desc :
  customers s !! cid = None ->
  create_payment tok t1 t2 cid amt cur pm desc s
  = (Raise (ValueError "Customer not found"), s, []).
Proof. intros Hc. unfold create_payment, bind, gets. rewrite Hc. reflexivity. Qed.

Lemma create_payment_no_method s tok t1 t2 cid amt cur pm desc c :
  customers s !! cid = Some c ->
  truthy_str (or_str pm (default_payment_method c)) = false ->
  create_payment tok t1 t2 cid amt cur pm desc s
  = (Raise (ValueError "No payment method"), s, []).
Proof.
  intros Hc Hpm. unfold create_payment, bind, gets. rewrite Hc.
  destruct (or_str pm (default_payment_method c)); [rewrite Hpm|]; reflexivity.
Qed.

Lemma validated_dec s cid pm :
  validated s cid pm ∨
  customers s !! cid = None ∨
  ∃ c, customers s !! cid = Some c ∧
       truthy_str (or_str pm (default_payment_method c)) = false.
Proof.
  unfold validated. destruct (customers s !! cid) as [c|]; [|auto].
  destruct (truthy_str (or_str pm (default_payment_method c))) eqn:Ht; eauto.
Qed.

(** X1. [create_payment] reaches the provider exactly when validation
    passes, and then asks it exactly one charge. An unknown customer gives
    [ValueError("Customer not found")]; a known customer with neither a
    non-empty method id passed nor a non-empty default gives
    [ValueError("No payment method")]; in both cases nothing is stored and
    nothing is emitted. *)
Theorem create_payment_validation s tok t1 t2 cid amt cur pm desc :
  let run := create_payment tok t1 t2 cid amt cur pm desc s in
  (customers s !! cid = None ->
   run = (Raise (ValueError "Customer not found"), s, [])) ∧
  (∀ c, customers s !! cid = Some c ->
        truthy_str (or_str pm (default_payment_method c)) = false ->
        run = (Raise (ValueError "No payment method"), s, [])) ∧
  (validated s cid pm ↔ charged (trace_of run) ≠ []) ∧
  (∀ c d, customers s !! cid = Some c ->
          or_str pm (default_payment_method c) = Some d -> d ≠ "" ->
          charged (trace_of run) = [(c, mkMoney amt cur, d)]).
Proof.
  intros run. subst run.
  split; [apply create_payment_unknown_customer|].
  split; [intros c; apply create_payment_no_method|].
  assert (Hrun : ∀ c d, customers s !! cid = Some c ->
            or_str pm (default_payment_method c) = Some d -> d ≠ "" ->
            charged (trace_of (create_payment tok t1 t2 cid amt cur pm desc s))
            = [(c, mkMoney amt cur, d)]).
  { intros c d Hc Hd Hne.
    rewrite (create_payment_run _ _ _ _ _ _ _ _ _ _ _ Hc Hd Hne). cbn zeta.
    destruct (charge (provider s) c (mkMoney amt cur) d) as [[[] result]|e];
      cbn [trace_of snd]; rewrite ?charged_app, ?charged_emit_effects;
      reflexivity. }
  split; [|exact Hrun].
  destruct (validated_dec s cid pm) as [(c & Hc & Ht) | [Hc | (c & Hc & Ht)]].
  - destruct (truthy_str_inv _ Ht) as (d & Hd & Hne).
    rewrite (Hrun c d Hc Hd Hne).
    split; [discriminate | intros _; exists c; auto].
  - rewrite (create_payment_unknown_customer _ _ _ _ _ _ _ _ _ Hc). cbn.
    split; [|congruence]. intros (c & Hc' & _). congruence.
  - rewrite (create_payment_no_method _ _ _ _ _ _ _ _ _ _ Hc Ht). cbn.
    split; [|congruence]. intros (c' & Hc' & Ht'). congruence.
Qed.

(** ** Running the other operations *)

Lemma calculate_period_end_run start ival count (s : PaymentProcessor) :
  _calculate_period_end start ival count s = (period_end_of start ival count, s, []).
Proof.
  unfold _calculate_period_end, period_end_of.
  repeat case_decide; apply lift_bind_plus.
Qed.

Lemma create_subscription_run tok now t_start cid pid s :
  create_subscription tok now t_start cid pid s =
  match customers s !! cid, plans s !! pid with
  | Some customer, Some plan =>
      match period_end_of now (interval plan) (interval_count plan),
            trial_end_of now (trial_days plan) with
      | Ret period_end, Ret trial =>
          let sub := mkSubscription ("sub_" +:+ tok) cid pid SUB_ACTIVE t_start
                       (Some period_end) trial None ∅ in
          (Ret (Some sub), with_subscriptions <[sub_id sub := sub]> s,
           emit_effects s "subscription.created" (ESubscription sub))
      | Raise e, _ => (Raise e, s, [])
      | Ret _, Raise e => (Raise e, s, [])
      end
  | _, _ => (Ret None, s, [])
  end.
Proof.
  unfold create_subscription, store_subscription.
  unfold bind at 1. unfold gets at 1. unfold bind at 1. unfold gets at 1.
  destruct (customers s !! cid) as [customer|]; [|destruct (plans s !! pid); reflexivity].
  destruct (plans s !! pid) as [plan|]; [|reflexivity].
  unfold bind at 1. rewrite calculate_period_end_run.
  destruct (period_end_of now (interval plan) (interval_count plan))
    as [period_end|e]; [|reflexivity].
  unfold trial_end_of, dt.plus_days.
  destruct (decide (trial_days plan = 0)) as [Hz|Hz].
  - unfold bind, modify, ret. rewrite emit_run. cbn -[emit_effects].
    rewrite app_nil_r. reflexivity.
  - unfold bind at 1. unfold bind at 1. unfold lift at 1.
    destruct (dt.days (trial_days plan)) as [d|e]; [|reflexivity].
    unfold bind at 1. unfold lift at 1.
    destruct (dt.add now d) as [t|e]; [|reflexivity].
    unfold bind, modify, ret. rewrite emit_run. cbn -[emit_effects].
    rewrite app_nil_r. reflexivity.
Qed.

(** Every call of [create_payment] is one of three: refused, with nothing
    done; or validated, and then as [create_payment_run] says. *)
Lemma create_payment_cases s tok t1 t2 cid amt cur pm desc :
  (∃ e, create_payment tok t1 t2 cid amt cur pm desc s = (Raise e, s, [])) ∨
  (∃ c d, customers s !! cid = Some c ∧
          or_str pm (default_payment_method c) = Some d ∧ d ≠ "").
Proof.
  destruct (validated_dec s cid pm) as [(c & Hc & Ht) | [Hc | (c & Hc & Ht)]].
  - right. destruct (truthy_str_inv _ Ht) as (d & Hd & Hne). eauto.
  - left. eexists. apply create_payment_unknown_customer, Hc.
  - left. eexists. eapply create_payment_no_method; eassumption.
Qed.

Lemma create_refund_cases s tok now pid amt reason :
  create_refund tok now pid amt reason s = (Ret None, s, []) ∨
  (∃ p, odict.get pid (payments s) = Some p ∧ pay_status p = COMPLETED).
Proof.
  destruct (odict.get pid (payments s)) as [p|] eqn:Hp.
  - destruct (decide (pay_status p = COMPLETED)) as [Hst|Hst]; [right; eauto|].
    left. apply create_refund_none. right. eauto.
  - left. apply create_refund_none. left. exact Hp.
Qed.

(** ** Frames *)

Ltac unfold_op :=
  first
    [ progress unfold add_hook | progress unfold get_customer
    | progress unfold create_customer | progress unfold add_payment_method
    | progress unfold create_payment | progress unfold create_refund
    | progress unfold create_plan | progress unfold create_subscription
    | progress unfold cancel_subscription | progress unfold list_payments
    | progress unfold _calculate_period_end
    | progress unfold store_payment | progress unfold store_refund
    | progress unfold store_subscription ].

Ltac keeps_auto := repeat first [keeps_step | unfold_op].

(** Rewrites the fields that the operation in the goal leaves alone. *)
Ltac frame :=
  repeat match goal with
         | |- context [?f (state_of (?m ?s))] =>
             let H := fresh in
             assert (H : keeps f m) by keeps_auto;
             rewrite (H s); clear H
         end.

Lemma odict_get_set_is_Some {V} k k' (v : V) d :
  is_Some (odict.get k d) -> is_Some (odict.get k (odict.set k' v d)).
Proof.
  intros H. destruct (decide (k' = k)) as [->|Hne].
  - rewrite odict_get_set_eq. eauto.
  - rewrite odict_get_set_ne by assumption. exact H.
Qed.

Lemma insert_is_Some {V} (m : gmap string V) k k' v :
  is_Some (m !! k) -> is_Some (<[k' := v]> m !! k).
Proof. intros H. rewrite lookup_insert_is_Some'. right. exact H. Qed.

(** ** Nothing is deleted *)

Lemma grows_refl s : grows s s.
Proof.
  repeat split; try (intros k Hk; exact Hk).
  intros ev hs Hev. exists []. rewrite app_nil_r. exact Hev.
Qed.

Lemma grows_trans s1 s2 s3 : grows s1 s2 -> grows s2 s3 -> grows s1 s3.
Proof.
  intros (H1 & H2 & H3 & H4 & H5 & H6) (G1 & G2 & G3 & G4 & G5 & G6).
  split; [intros k Hk; apply G1, H1, Hk|].
  split; [intros k Hk; apply G2, H2, Hk|].
  split; [intros k Hk; apply G3, H3, Hk|].
  split; [intros k Hk; apply G4, H4, Hk|].
  split; [intros k Hk; apply G5, H5, Hk|].
  intros ev hs Hev. destruct (H6 _ _ Hev) as (hs1 & Hev1).
  destruct (G6 _ _ Hev1) as (hs2 & Hev2).
  exists (hs1 ++ hs2). rewrite app_assoc. exact Hev2.
Qed.

Lemma hooks_kept (s : PaymentProcessor) ev hs :
  hooks s !! ev = Some hs -> ∃ hs', hooks s !! ev = Some (hs ++ hs').
Proof. intros H. exists []. rewrite app_nil_r. exact H. Qed.

Ltac grows_kept :=
  unfold grows; frame;
  repeat match goal with
         | |- _ ∧ _ => split
         | |- ∀ k, is_Some ?x -> is_Some ?x => intros ? ?; assumption
         | |- ∀ ev hs, _ -> ∃ hs', _ => apply hooks_kept
         end.

Lemma step_grows s s' : step s s' -> grows s s'.
Proof.
  intros Hstep. destruct Hstep; grows_kept.
  - intros ev hs Hev. rewrite add_hook_lookup, Hev.
    case_decide; [exists [handler] | exists []; rewrite app_nil_r]; reflexivity.
  - intros k. rewrite create_customer_run. cbn -[String.append]. apply insert_is_Some.
  - intros k. rewrite add_payment_method_run.
    destruct (customers s !! customer_id); cbn -[String.append]; [apply insert_is_Some | trivial].
  - intros k Hk.
    destruct (create_payment_cases s tok t1 t2 customer_id amt cur pm description)
      as [[e ->] | (c & d & Hc & Hd & Hne)]; [exact Hk|].
    rewrite (create_payment_run _ _ _ _ _ _ _ _ _ _ _ Hc Hd Hne). cbn zeta.
    destruct (charge (provider s) c (mkMoney amt cur) d) as [[[] result]|e];
      cbn -[String.append]; repeat apply odict_get_set_is_Some; exact Hk.
  - intros k Hk.
    destruct (create_refund_cases s tok now payment_id amt reason)
      as [-> | (p & Hp & Hst)]; [exact Hk|].
    rewrite (create_refund_run _ _ _ _ _ _ _ Hp Hst). cbn zeta.
    destruct (refund (provider s) payment_id _) as [[[] result]|e];
      cbn -[String.append]; repeat apply odict_get_set_is_Some; exact Hk.
  - intros k Hk.
    destruct (create_refund_cases s tok now payment_id amt reason)
      as [-> | (p & Hp & Hst)]; [exact Hk|].
    rewrite (create_refund_run _ _ _ _ _ _ _ Hp Hst). cbn zeta.
    destruct (refund (provider s) payment_id _) as [[[] result]|e];
      cbn -[String.append]; repeat apply insert_is_Some; exact Hk.
  - intros k. apply insert_is_Some.
  - intros k Hk. rewrite create_subscription_run.
    destruct (customers s !! _) as [c|]; [|exact Hk].
    destruct (plans s !! _) as [pl|]; [|exact Hk].
    destruct (period_end_of _ _ _); [|exact Hk].
    destruct (trial_end_of _ _); [|exact Hk].
    cbn -[String.append]. apply insert_is_Some, Hk.
  - intros k Hk. rewrite cancel_subscription_run.
    destruct (subscriptions s !! subscription_id); [|exact Hk].
    cbn. apply insert_is_Some, Hk.
Qed.

(** X2. Whatever operations are called one after the other, nothing the
    processor holds is ever dropped: every id of a customer, payment,
    refund, plan or subscription stays known, and every handler stays
    registered for its event, before the handlers registered after it. *)
Theorem nothing_deleted s s' : rtc step s s' -> grows s s'.
Proof.
  induction 1 as [s | s1 s2 s3 Hstep _ IH]; [apply grows_refl|].
  eapply grows_trans; [apply step_grows, Hstep | exact IH].
Qed.

(** The theorem from Alice's state to her second payment: she is still a
    customer, and her first payment is still in the store. *)
Lemma nothing_deleted_witness :
  is_Some (customers tied_state !! "cus_a1") ∧
  is_Some (odict.get "pay_p1" (payments tied_state)).
Proof.
  assert (Hrtc : rtc step (paid_state (MockPaymentProvider "71c5")) tied_state).
  { apply rtc_once. apply step_create_payment. }
  destruct (nothing_deleted _ _ Hrtc) as (Hc & Hp & _).
  split; [apply Hc | apply Hp]; vm_compute; eauto.
Defined.

(** ** The payment store between two calls *)

Lemma odict_get_set {V} k k' (v : V) d :
  odict.get k' (odict.set k v d) = if decide (k = k') then Some v else odict.get k' d.
Proof.
  case_decide; [subst; apply odict_get_set_eq | apply odict_get_set_ne; assumption].
Qed.

Lemma odict_get_keys {V} k (d : odict.t V) : is_Some (odict.get k d) ↔ k ∈ d.*1.
Proof.
  induction d as [|[k' v] d IH]; cbn.
  - split; [intros [? [=]] | intros H; apply elem_of_nil in H; contradiction].
  - rewrite elem_of_cons. case_decide; [subst|].
    + split; [auto | eauto].
    + rewrite IH. split; [auto | intros [?|?]; [congruence | assumption]].
Qed.

Lemma odict_set_NoDup {V} k (v : V) d : NoDup d.*1 -> NoDup (odict.set k v d).*1.
Proof.
  induction d as [|[k' v'] d IH]; cbn; intros Hnd.
  - apply NoDup_singleton.
  - apply NoDup_cons in Hnd as [Hk' Hnd]. case_decide; [subst|]; cbn.
    + apply NoDup_cons. auto.
    + apply NoDup_cons. split; [|apply IH, Hnd].
      rewrite <- odict_get_keys, odict_get_set_ne by congruence.
      rewrite odict_get_keys. exact Hk'.
Qed.

Lemma payment_ok_grows s s' k p : grows s s' -> payment_ok s k p -> payment_ok s' k p.
Proof.
  intros (Hc & _) (H1 & H2 & H3). split; [exact H1|]. split; [apply Hc, H2 | exact H3].
Qed.

Lemma payments_ok_kept s s' :
  grows s s' -> payments s' = payments s -> payments_ok s -> payments_ok s'.
Proof.
  intros Hg Heq [Hnd Hok]. unfold payments_ok. rewrite Heq.
  split; [exact Hnd|]. intros k p Hk. eapply payment_ok_grows; eauto.
Qed.

Lemma payments_ok_set s s' k p :
  grows s s' -> payments s' = odict.set k p (payments s) ->
  payment_ok s' k p -> payments_ok s -> payments_ok s'.
Proof.
  intros Hg Heq Hp [Hnd Hok]. unfold payments_ok. rewrite Heq.
  split; [apply odict_set_NoDup, Hnd|].
  intros k' p'. rewrite odict_get_set. case_decide.
  - intros [= <-]. subst. exact Hp.
  - intros Hk'. eapply payment_ok_grows; eauto.
Qed.

Lemma odict_set_set {V} k (v v' : V) d :
  odict.set k v (odict.set k v' d) = odict.set k v d.
Proof.
  induction d as [|[k0 v0] d IH]; cbn.
  - rewrite decide_True by reflexivity. reflexivity.
  - case_decide; cbn.
    + rewrite decide_True by reflexivity. reflexivity.
    + rewrite decide_False by assumption. rewrite IH. reflexivity.
Qed.

Lemma elem_of_statuses (st : PaymentStatus) l : st ∈ l ↔ In st l.
Proof. apply list_elem_of_In. Qed.

Lemma step_payments_ok s s' : payments_ok s -> step s s' -> payments_ok s'.
Proof.
  intros Hok Hstep. pose proof (step_grows _ _ Hstep) as Hg.
  destruct Hstep;
    try (apply (payments_ok_kept _ _ Hg); [frame; reflexivity | exact Hok]).
  - destruct (create_payment_cases s tok t1 t2 customer_id amt cur pm description)
      as [[e He] | (c & d & Hc & Hd & Hne)].
    { rewrite He. exact Hok. }
    revert Hg. rewrite (create_payment_run _ _ _ _ _ _ _ _ _ _ _ Hc Hd Hne). cbn zeta.
    assert (Hcus : ∀ s0, customers s0 = customers s ->
                         is_Some (customers s0 !! customer_id)).
    { intros s0 ->. rewrite Hc. eauto. }
    destruct (charge (provider s) c (mkMoney amt cur) d) as [[[] result]|e];
      cbn [state_of fst snd]; intros Hg;
      (eapply payments_ok_set;
       [exact Hg
       |cbn -[String.append]; rewrite ?odict_set_set; reflexivity
       | |exact Hok]);
      (split; [reflexivity|]); (split; [apply Hcus; reflexivity|]);
      (split; [apply truthy_str_Some, Hne|]); cbn;
      (split; [rewrite elem_of_statuses; cbn; tauto|]);
      (split;
       [split;
        [first [solve [intros _; left; reflexivity] | intros [? [=]]]
        |first [solve [intros _; eexists; reflexivity] | intros [[=]|[=]]]]
       |first [intros _; reflexivity | intros Hf; exfalso; apply Hf; reflexivity]]).
  - destruct (create_refund_cases s tok now payment_id amt reason)
      as [He | (p & Hp & Hst)].
    { rewrite He. exact Hok. }
    revert Hg. rewrite (create_refund_run _ _ _ _ _ _ _ Hp Hst). cbn zeta.
    destruct (refund (provider s) payment_id _) as [[[] result]|e];
      cbn [state_of fst snd]; intros Hg;
      try (apply (payments_ok_kept _ _ Hg); [reflexivity | exact Hok]).
    eapply payments_ok_set; [exact Hg | reflexivity | | exact Hok].
    destruct Hok as [_ Hok]. destruct (Hok _ _ Hp) as (H1 & H2 & H3 & H4 & H5 & H6).
    split; [exact H1|]. split; [exact H2|]. split; [exact H3|]. cbn.
    split; [rewrite elem_of_statuses; cbn; tauto|].
    split; [split; [auto | intros _; apply H5; auto]|].
    intros _. apply H6. rewrite Hst. discriminate.
Qed.

(** ** The refund store between two calls *)

Lemma refund_ok_grows s s' k r : grows s s' -> refund_ok s k r -> refund_ok s' k r.
Proof.
  intros (_ & Hp & _) (H1 & H2 & H3). split; [exact H1|]. split; [apply Hp, H2 | exact H3].
Qed.

Lemma refunds_ok_kept s s' :
  grows s s' -> refunds s' = refunds s -> refunds_ok s -> refunds_ok s'.
Proof.
  intros Hg Heq Hok. unfold refunds_ok. rewrite Heq.
  intros k r Hk. eapply refund_ok_grows; eauto.
Qed.

Lemma refunds_ok_insert s s' k r :
  grows s s' -> refunds s' = <[k := r]> (refunds s) ->
  refund_ok s' k r -> refunds_ok s -> refunds_ok s'.
Proof.
  intros Hg Heq Hr Hok. unfold refunds_ok. rewrite Heq.
  intros k' r'. rewrite lookup_insert. case_decide.
  - intros [= <-]. subst. exact Hr.
  - intros Hk'. eapply refund_ok_grows; eauto.
Qed.

Lemma step_refunds_ok s s' : refunds_ok s -> step s s' -> refunds_ok s'.
Proof.
  intros Hok Hstep. pose proof (step_grows _ _ Hstep) as Hg.
  destruct Hstep;
    try (apply (refunds_ok_kept _ _ Hg); [frame; reflexivity | exact Hok]).
  destruct (create_refund_cases s tok now payment_id amt reason)
    as [He | (p & Hp & Hst)].
  { rewrite He. exact Hok. }
  revert Hg. rewrite (create_refund_run _ _ _ _ _ _ _ Hp Hst). cbn zeta.
  destruct (refund (provider s) payment_id _) as [[[] result]|e];
    cbn [state_of fst snd]; intros Hg;
    (eapply refunds_ok_insert;
     [exact Hg
     |cbn -[String.append]; rewrite ?insert_insert_eq; reflexivity
     | |exact Hok]);
    (split; [reflexivity|]);
    (split; [cbn -[String.append]; rewrite ?odict_get_set; try case_decide;
             rewrite ?Hp; eauto|]);
    cbn; rewrite elem_of_statuses; cbn; tauto.
Qed.

(** ** The subscription store between two calls *)

Lemma subscription_ok_grows s s' k sub :
  grows s s' -> subscription_ok s k sub -> subscription_ok s' k sub.
Proof.
  intros (Hc & _ & _ & Hpl & _) (H1 & H2 & H3 & H4).
  split; [exact H1|]. split; [apply Hc, H2|]. split; [apply Hpl, H3 | exact H4].
Qed.

Lemma subscriptions_ok_kept s s' :
  grows s s' -> subscriptions s' = subscriptions s ->
  subscriptions_ok s -> subscriptions_ok s'.
Proof.
  intros Hg Heq Hok. unfold subscriptions_ok. rewrite Heq.
  intros k r Hk. eapply subscription_ok_grows; eauto.
Qed.

Lemma subscriptions_ok_insert s s' k sub :
  grows s s' -> subscriptions s' = <[k := sub]> (subscriptions s) ->
  subscription_ok s' k sub -> subscriptions_ok s -> subscriptions_ok s'.
Proof.
  intros Hg Heq Hr Hok. unfold subscriptions_ok. rewrite Heq.
  intros k' r'. rewrite lookup_insert. case_decide.
  - intros [= <-]. subst. exact Hr.
  - intros Hk'. eapply subscription_ok_grows; eauto.
Qed.

Lemma step_subscriptions_ok s s' :
  subscriptions_ok s -> step s s' -> subscriptions_ok s'.
Proof.
  intros Hok Hstep. pose proof (step_grows _ _ Hstep) as Hg.
  destruct Hstep;
    try (apply (subscriptions_ok_kept _ _ Hg); [frame; reflexivity | exact Hok]).
  - revert Hg. rewrite create_subscription_run.
    destruct (customers s !! _) as [c|] eqn:Hc; [|intros _; exact Hok].
    destruct (plans s !! _) as [pl|] eqn:Hpl; [|intros _; exact Hok].
    destruct (period_end_of _ _ _) as [pe|e]; [|intros _; exact Hok].
    destruct (trial_end_of _ _) as [tr|e]; [|intros _; exact Hok].
    cbn zeta. cbn [state_of fst snd]. intros Hg.
    eapply subscriptions_ok_insert; [exact Hg | reflexivity | | exact Hok].
    split; [reflexivity|]. cbn -[String.append].
    rewrite Hc, Hpl. repeat split; eauto.
  - revert Hg. rewrite cancel_subscription_run.
    destruct (subscriptions s !! _) as [sub|] eqn:Hsub; [|intros _; exact Hok].
    cbn [state_of fst snd]. intros Hg.
    eapply subscriptions_ok_insert; [exact Hg | reflexivity | | exact Hok].
    destruct (Hok _ _ Hsub) as (H1 & H2 & H3 & H4 & _).
    split; [exact H1|]. split; [exact H2|]. split; [exact H3|].
    split; [exact H4|]. right. cbn. eauto.
Qed.

(** ** The first payment method *)

Lemma step_default_is_first s s' :
  customers_ok s ->
  (∀ cid c, customers s !! cid = Some c -> default_is_first c) ->
  step s s' ->
  ∀ cid c, customers s' !! cid = Some c -> default_is_first c.
Proof.
  intros Hne Hok Hstep.
  destruct Hstep; try (frame; exact Hok).
  - rewrite create_customer_run. cbn [state_of fst snd].
    intros cid c. cbn -[String.append]. rewrite lookup_insert.
    case_decide; [|apply Hok]. intros [= <-]. reflexivity.
  - rewrite add_payment_method_run.
    destruct (customers s !! customer_id) as [c|] eqn:Hc; [|exact Hok].
    cbn [state_of fst snd]. intros cid c'. cbn -[String.append].
    rewrite lookup_insert. case_decide; [|apply Hok].
    intros [= <-]. unfold default_is_first. cbn -[String.append].
    pose proof (Hok _ _ Hc) as Hfirst. unfold default_is_first in Hfirst.
    destruct (payment_methods c) as [|m0 ms] eqn:Hms; cbn in Hfirst |- *.
    + rewrite Hfirst. reflexivity.
    + destruct (Hne _ _ Hc _ Hfirst) as [Hd _].
      rewrite Hfirst, (truthy_str_Some _ Hd). reflexivity.
Qed.

Lemma reachable_default_is_first s :
  reachable s -> ∀ cid c, customers s !! cid = Some c -> default_is_first c.
Proof.
  induction 1 as [provider token | s s' Hs IH Hstep].
  - intros cid c. cbn. rewrite lookup_empty. discriminate.
  - exact (step_default_is_first _ _ (reachable_customers_ok _ Hs) IH Hstep).
Qed.

Lemma reachable_payments_ok s : reachable s -> payments_ok s.
Proof.
  induction 1 as [provider token | s s' _ IH Hstep].
  - split; [constructor | intros k p [=]].
  - exact (step_payments_ok _ _ IH Hstep).
Qed.

Lemma reachable_refunds_ok s : reachable s -> refunds_ok s.
Proof.
  induction 1 as [provider token | s s' _ IH Hstep].
  - intros k r. cbn. rewrite lookup_empty. discriminate.
  - exact (step_refunds_ok _ _ IH Hstep).
Qed.

Lemma reachable_subscriptions_ok s : reachable s -> subscriptions_ok s.
Proof.
  induction 1 as [provider token | s s' _ IH Hstep].
  - intros k r. cbn. rewrite lookup_empty. discriminate.
  - exact (step_subscriptions_ok _ _ IH Hstep).
Qed.

(** ** The states of the examples are reachable *)

Lemma reachable_bob_state : reachable bob_state.
Proof.
  eapply reachable_step; [apply (reachable_init None "09af")|].
  apply step_create_customer.
Qed.

Lemma reachable_alice_state prov : reachable (alice_state prov).
Proof.
  eapply reachable_step; [|apply step_add_payment_method].
  eapply reachable_step; [apply (reachable_init (Some prov) "")|].
  apply step_create_customer.
Qed.

Lemma reachable_paid_state prov : reachable (paid_state prov).
Proof.
  eapply reachable_step; [apply reachable_alice_state|].
  apply step_create_payment.
Qed.

Lemma reachable_tied_state : reachable tied_state.
Proof.
  eapply reachable_step; [apply reachable_paid_state|].
  apply step_create_payment.
Qed.

(** ** Invariants of the reachable states *)

(** X3. In every state the processor reaches, the default payment method
    of a customer is the id of the first method that customer added, and
    is unset exactly when the customer has none. So a payment asked without
    a method id is refused with [ValueError("No payment method")], nothing
    stored and the provider not called, when the customer has no method,
    and is charged to the customer's first method otherwise. *)
Theorem default_method_is_first s cid c :
  reachable s ->
  customers s !! cid = Some c ->
  default_payment_method c = pm_id <$> head (payment_methods c) ∧
  (payment_methods c = [] ->
   ∀ tok t1 t2 amt cur desc,
     create_payment tok t1 t2 cid amt cur None desc s
     = (Raise (ValueError "No payment method"), s, [])) ∧
  (∀ m ms, payment_methods c = m :: ms ->
   ∀ tok t1 t2 amt cur desc,
     charged (trace_of (create_payment tok t1 t2 cid amt cur None desc s))
     = [(c, mkMoney amt cur, pm_id m)]).
Proof.
  intros Hs Hc.
  pose proof (reachable_default_is_first s Hs _ _ Hc) as Hfirst.
  pose proof (reachable_customers_ok s Hs _ _ Hc) as Hne.
  unfold default_is_first in Hfirst. split; [exact Hfirst|]. split.
  - intros Hms tok t1 t2 amt cur desc. rewrite Hms in Hfirst.
    apply (create_payment_no_method _ _ _ _ _ _ _ _ _ _ Hc).
    unfold or_str. cbn. rewrite Hfirst. reflexivity.
  - intros m ms Hms tok t1 t2 amt cur desc. rewrite Hms in Hfirst. cbn in Hfirst.
    destruct (Hne _ Hfirst) as [Hd _].
    assert (Hor : or_str None (default_payment_method c) = Some (pm_id m))
      by (unfold or_str; cbn; exact Hfirst).
    rewrite (create_payment_run _ _ _ _ _ _ _ _ _ _ _ Hc Hor Hd). cbn zeta.
    destruct (charge (provider s) c (mkMoney amt cur) (pm_id m)) as [[[] result]|e];
      cbn [trace_of snd]; rewrite ?charged_app, ?charged_emit_effects; reflexivity.
Qed.

(** The theorem at Alice, whose only method is the card [pm_m1]. *)
Lemma default_method_is_first_witness :
  default_payment_method alice = Some "pm_m1" ∧
  charged (trace_of (create_payment "p1" 200 201 "cus_a1" price USD None ""
                       (alice_state (failing_provider ∅))))
  = [(alice, mkMoney price USD, "pm_m1")].
Proof.
  destruct (default_method_is_first (alice_state (failing_provider ∅)) "cus_a1" alice)
    as (Hd & _ & Hch); [apply reachable_alice_state | vm_compute; reflexivity |].
  split; [exact Hd|].
  apply (Hch (mkPaymentMethodInfo "pm_m1" CARD "4242" "visa" 12 2025 ∅) []).
  reflexivity.
Defined.

Lemma reachable_refunded_state : reachable refunded_state.
Proof.
  eapply reachable_step; [apply reachable_paid_state|].
  apply step_create_refund.
Qed.

Lemma reachable_plan_state : reachable plan_state.
Proof.
  eapply reachable_step; [apply reachable_alice_state|].
  apply step_create_plan.
Qed.

Lemma reachable_subscribed_state : reachable subscribed_state.
Proof.
  eapply reachable_step; [apply reachable_plan_state|].
  apply step_create_subscription.
Qed.

(** X4. In every state the processor reaches, a payment is in the store
    under its own id, its customer is known, its method id is a non-empty
    string, its status is PROCESSING, COMPLETED, FAILED or REFUNDED (never
    PENDING, never CANCELLED), [completed_at] is set exactly when the
    status is COMPLETED or REFUNDED, and [error] is unset unless the status
    is FAILED. *)
Theorem stored_payment_ok s k p :
  reachable s ->
  odict.get k (payments s) = Some p ->
  pay_id p = k ∧
  is_Some (customers s !! pay_customer_id p) ∧
  (∃ m, payment_method_id p = Some m ∧ m ≠ "") ∧
  pay_status p ∈ [PROCESSING; COMPLETED; FAILED; REFUNDED] ∧
  (is_Some (completed_at p) ↔ pay_status p = COMPLETED ∨ pay_status p = REFUNDED) ∧
  (pay_status p ≠ FAILED -> error p = VNone).
Proof.
  intros Hs Hk. destruct (reachable_payments_ok s Hs) as [_ Hok].
  destruct (Hok _ _ Hk) as (H1 & H2 & H3 & H4).
  split; [exact H1|]. split; [exact H2|]. split; [|exact H4].
  apply truthy_str_inv, H3.
Qed.

(** The theorem at Alice's payment after it has been refunded. *)
Lemma stored_payment_ok_witness :
  pay_id (set_pay_status REFUNDED (alice_payment "71c5")) = "pay_p1" ∧
  is_Some (completed_at (set_pay_status REFUNDED (alice_payment "71c5"))) ∧
  error (set_pay_status REFUNDED (alice_payment "71c5")) = VNone.
Proof.
  destruct (stored_payment_ok refunded_state "pay_p1"
              (set_pay_status REFUNDED (alice_payment "71c5")))
    as (Hid & _ & _ & _ & Hat & Herr);
    [apply reachable_refunded_state | vm_compute; reflexivity |].
  split; [exact Hid|]. split; [apply Hat; right; reflexivity|].
  apply Herr. discriminate.
Defined.

(** X5. In every state the processor reaches, a refund is in the store
    under its own id, the payment it refers to is in the payment store, and
    its status is PENDING, COMPLETED or FAILED. *)
Theorem stored_refund_ok s k r :
  reachable s ->
  refunds s !! k = Some r ->
  ref_id r = k ∧
  is_Some (odict.get (ref_payment_id r) (payments s)) ∧
  ref_status r ∈ [PENDING; COMPLETED; FAILED].
Proof. intros Hs Hk. exact (reachable_refunds_ok s Hs _ _ Hk). Qed.

(** The theorem at the refund of Alice's payment. *)
Lemma stored_refund_ok_witness :
  ref_id alice_refund = "ref_r1" ∧
  is_Some (odict.get (ref_payment_id alice_refund) (payments refunded_state)).
Proof.
  destruct (stored_refund_ok refunded_state "ref_r1" alice_refund)
    as (Hid & Hp & _); [apply reachable_refunded_state | vm_compute; reflexivity |].
  split; assumption.
Defined.

(** X6. In every state the processor reaches, a subscription is in the
    store under its own id, its customer and its plan are known, its period
    has an end, and it is either ACTIVE with [cancelled_at] unset or
    CANCELLED with [cancelled_at] set: no operation pauses a subscription or
    lets it expire. *)
Theorem stored_subscription_ok s k sub :
  reachable s ->
  subscriptions s !! k = Some sub ->
  sub_id sub = k ∧
  is_Some (customers s !! sub_customer_id sub) ∧
  is_Some (plans s !! sub_plan_id sub) ∧
  is_Some (current_period_end sub) ∧
  (sub_status sub = SUB_ACTIVE ∧ cancelled_at sub = None ∨
   sub_status sub = SUB_CANCELLED ∧ is_Some (cancelled_at sub)).
Proof. intros Hs Hk. exact (reachable_subscriptions_ok s Hs _ _ Hk). Qed.

(** The theorem at Alice's subscription. *)
Lemma stored_subscription_ok_witness :
  sub_id alice_subscription = "sub_s1" ∧
  is_Some (plans subscribed_state !! sub_plan_id alice_subscription).
Proof.
  destruct (stored_subscription_ok subscribed_state "sub_s1" alice_subscription)
    as (Hid & _ & Hpl & _);
    [apply reachable_subscribed_state | vm_compute; reflexivity |].
  split; assumption.
Defined.

(** ** [list_payments] and the store *)

Lemma odict_get_elem {V} k (v : V) d :
  NoDup d.*1 -> (k, v) ∈ d -> odict.get k d = Some v.
Proof.
  induction d as [|[k' v'] d IH]; cbn; intros Hnd Hin.
  - apply elem_of_nil in Hin. contradiction.
  - apply NoDup_cons in Hnd as [Hk' Hnd].
    apply elem_of_cons in Hin as [[= -> ->] | Hin].
    + rewrite decide_True by reflexivity. reflexivity.
    + case_decide; [subst|apply IH; assumption].
      exfalso. apply Hk'. apply list_elem_of_fmap. exists (k, v). auto.
Qed.

Lemma payments_ok_ids s :
  payments_ok s -> pay_id <$> odict.values (payments s) = (payments s).*1.
Proof.
  intros [Hnd Hok]. unfold odict.values.
  assert (Hall : ∀ k p, (k, p) ∈ payments s -> pay_id p = k).
  { intros k p Hin. apply (Hok k p). apply odict_get_elem; assumption. }
  clear Hnd Hok. induction (payments s) as [|[k p] d IH]; [reflexivity|].
  cbn. f_equal; [apply Hall, elem_of_cons; auto|].
  apply IH. intros k' p' Hin. apply Hall, elem_of_cons. auto.
Qed.

(** X7. In every state the processor reaches, [list_payments] lists no
    payment twice, and every payment it lists is the one the store holds
    under the payment's id. With no [customer_id] it lists as many payments
    as the store has ids. *)
Theorem list_payments_of_store s customer_id l :
  reachable s ->
  result_of (list_payments customer_id s) = Ret l ->
  NoDup (pay_id <$> l) ∧
  (∀ p, p ∈ l -> odict.get (pay_id p) (payments s) = Some p) ∧
  (customer_id = None -> length l = length (payments s)).
Proof.
  intros Hs. pose proof (reachable_payments_ok s Hs) as Hok.
  unfold list_payments, bind, gets, ret. cbn [result_of fst]. intros [= <-].
  set (ps := if truthy_str customer_id
             then filter (fun p => Some (pay_customer_id p) = customer_id)
                    (odict.values (payments s))
             else odict.values (payments s)).
  assert (Hsub : ps `sublist_of` odict.values (payments s)).
  { subst ps. destruct (truthy_str customer_id); [apply sublist_filter | reflexivity]. }
  split; [|split].
  - rewrite sorted_reverse_perm.
    eapply sublist_NoDup; [|apply fmap_sublist, Hsub].
    rewrite (payments_ok_ids _ Hok). apply Hok.
  - intros p Hp. rewrite sorted_reverse_perm in Hp.
    apply (sublist_subseteq _ _ Hsub) in Hp.
    unfold odict.values in Hp. apply list_elem_of_fmap in Hp as ([k p'] & -> & Hin).
    destruct Hok as [Hnd Hok]. cbn.
    pose proof (odict_get_elem _ _ _ Hnd Hin) as Hget.
    destruct (Hok _ _ Hget) as [-> _]. exact Hget.
  - intros ->. subst ps. cbn. rewrite sorted_reverse_perm.
    unfold odict.values. apply length_fmap.
Qed.

(** The theorem at the two payments of [tied_state]. *)
Lemma list_payments_of_store_witness :
  ∃ l, result_of (list_payments None tied_state) = Ret l ∧
       NoDup (pay_id <$> l) ∧ length l = 2%nat.
Proof.
  eexists. split; [reflexivity|].
  destruct (list_payments_of_store tied_state None _ reachable_tied_state eq_refl)
    as (Hnd & _ & Hlen).
  split; [exact Hnd|]. rewrite Hlen by reflexivity. reflexivity.
Defined.

(** ** A refunded payment *)

Lemma refund_calls_app t1 t2 :
  refund_calls (t1 ++ t2) = refund_calls t1 ++ refund_calls t2.
Proof. apply omap_app. Qed.

Lemma refund_calls_emit_effects s event data :
  refund_calls (emit_effects s event data) = [].
Proof.
  unfold emit_effects. cbn.
  induction (default [] (hooks s !! event)) as [|h hs IH]; [reflexivity|].
  cbn [handler_effects]. destruct (handler_call h data); cbn; exact IH.
Qed.

Lemma create_refund_calls s tok now pid amt reason payment :
  odict.get pid (payments s) = Some payment ->
  pay_status payment = COMPLETED ->
  refund_calls (trace_of (create_refund tok now pid amt reason s))
  = [(pid, mkMoney (or_dec amt (amount (pay_amount payment)))
                   (currency (pay_amount payment)))].
Proof.
  intros Hp Hst. rewrite (create_refund_run _ _ _ _ _ _ _ Hp Hst). cbn zeta.
  destruct (refund (provider s) pid _) as [[[] ?]|?]; cbn [trace_of snd];
    rewrite ?refund_calls_app, ?refund_calls_emit_effects; reflexivity.
Qed.

(** The payments that a payment or a refund leaves alone. *)
Lemma create_payment_other_payments s tok t1 t2 cid amt cur pm desc k :
  k ≠ "pay_" +:+ tok ->
  odict.get k (payments (state_of (create_payment tok t1 t2 cid amt cur pm desc s)))
  = odict.get k (payments s).
Proof.
  intros Hk.
  destruct (create_payment_cases s tok t1 t2 cid amt cur pm desc)
    as [[e ->] | (c & d & Hc & Hd & Hne)]; [reflexivity|].
  rewrite (create_payment_run _ _ _ _ _ _ _ _ _ _ _ Hc Hd Hne). cbn zeta.
  destruct (charge (provider s) c (mkMoney amt cur) d) as [[[] result]|e];
    cbn -[String.append]; rewrite !odict_get_set_ne by congruence; reflexivity.
Qed.

Lemma create_refund_other_payments s tok now pid amt reason k :
  k ≠ pid ->
  odict.get k (payments (state_of (create_refund tok now pid amt reason s)))
  = odict.get k (payments s).
Proof.
  intros Hk.
  destruct (create_refund_cases s tok now pid amt reason)
    as [-> | (p & Hp & Hst)]; [reflexivity|].
  rewrite (create_refund_run _ _ _ _ _ _ _ Hp Hst). cbn zeta.
  destruct (refund (provider s) pid _) as [[[] result]|e];
    cbn -[String.append]; rewrite ?odict_get_set_ne by congruence; reflexivity.
Qed.

(** Every step of the processor is a call, and every call is a step. *)
Lemma step_after c s : step s (after c s).
Proof. destruct c; constructor. Qed.

Lemma step_is_after s s' : step s s' ↔ ∃ c, s' = after c s.
Proof.
  split; [|intros [c ->]; apply step_after].
  intros Hstep. destruct Hstep.
  - by exists (CallAddHook event handler).
  - by exists (CallCreateCustomer tok now email name metadata).
  - by exists (CallGetCustomer customer_id).
  - by exists (CallAddPaymentMethod tok customer_id ty last_four brand m y metadata).
  - by exists (CallCreatePayment tok t1 t2 customer_id amt cur pm description).
  - by exists (CallCreateRefund tok now payment_id amt reason).
  - by exists (CallCreatePlan tok name amt cur ival count days feats metadata).
  - by exists (CallCreateSubscription tok now t_start customer_id plan_id0).
  - by exists (CallCancelSubscription now subscription_id).
  - by exists (CallListPayments customer_id).
Qed.

Lemma rtc_step_after_all cs s : rtc step s (after_all cs s).
Proof.
  revert s. induction cs as [|c cs IH]; intros s; [apply rtc_refl|].
  eapply rtc_l; [apply (step_after c)|]. apply IH.
Qed.

Lemma after_keeps_refunded c s pid p :
  odict.get pid (payments s) = Some p ->
  pay_status p = REFUNDED ->
  payment_id_of c ≠ Some pid ->
  odict.get pid (payments (after c s)) = Some p.
Proof.
  intros Hp Hst Hc. destruct c; cbn [after]; try (frame; exact Hp).
  - rewrite create_payment_other_payments; [exact Hp|].
    intros ->. apply Hc. reflexivity.
  - destruct (decide (payment_id = pid)) as [->|Hne].
    + rewrite create_refund_none; [exact Hp|].
      right. exists p. split; [exact Hp|]. rewrite Hst. discriminate.
    + rewrite create_refund_other_payments by congruence. exact Hp.
Qed.

(** X8. A REFUNDED payment is refused by [create_refund], and stays as it
    is, through every sequence of calls made one after the other in which
    no [create_payment] draws the token of that payment again: after such
    a sequence the payment is in the store unchanged, and [create_refund]
    on it returns [None], stores nothing, emits nothing and does not reach
    the provider. *)
Theorem refunded_is_final s pid p calls :
  odict.get pid (payments s) = Some p ->
  pay_status p = REFUNDED ->
  Forall (fun c => payment_id_of c ≠ Some pid) calls ->
  let s' := after_all calls s in
  rtc step s s' ∧
  odict.get pid (payments s') = Some p ∧
  ∀ tok now amt reason,
    create_refund tok now pid amt reason s' = (Ret None, s', []).
Proof.
  intros Hp Hst Hcalls s'. subst s'.
  split; [apply rtc_step_after_all|].
  assert (Hkept : odict.get pid (payments (after_all calls s)) = Some p).
  { revert s Hp. induction Hcalls as [|c cs Hc _ IH]; intros s Hp; [exact Hp|].
    apply IH. apply after_keeps_refunded; assumption. }
  split; [exact Hkept|].
  intros tok now amt reason. apply create_refund_none.
  right. exists p. split; [exact Hkept|]. rewrite Hst. discriminate.
Qed.

(** The theorem at Alice's refunded payment, after a second payment, a
    second request to refund the first, and a cancellation. *)
Lemma refunded_is_final_witness :
  create_refund "r3" 800 "pay_p1" None ""
    (after_all [ CallCreatePayment "p2" 500 501 "cus_a1" price USD None "again";
                 CallCreateRefund "r2" 600 "pay_p1" None "";
                 CallCancelSubscription 700 "sub_s1" ] refunded_state)
  = (Ret None,
     after_all [ CallCreatePayment "p2" 500 501 "cus_a1" price USD None "again";
                 CallCreateRefund "r2" 600 "pay_p1" None "";
                 CallCancelSubscription 700 "sub_s1" ] refunded_state,
     []).
Proof.
  destruct (refunded_is_final refunded_state "pay_p1"
              (set_pay_status REFUNDED (alice_payment "71c5"))
              [ CallCreatePayment "p2" 500 501 "cus_a1" price USD None "again";
                CallCreateRefund "r2" 600 "pay_p1" None "";
                CallCancelSubscription 700 "sub_s1" ])
    as (_ & _ & Hnone);
    [vm_compute; reflexivity | reflexivity | repeat constructor; discriminate |].
  apply Hnone.
Defined.

(** What the theorem leaves out does happen. When [create_payment] draws
    the token of Alice's refunded payment again, the new payment takes its
    place in the store, COMPLETED, and a second refund under that id goes
    through: the store then has two COMPLETED refunds of [pay_p1]. *)
Example refund_again_after_id_reuse :
  pay_status <$> odict.get "pay_p1" (payments refunded_state) = Some REFUNDED ∧
  pay_status <$> odict.get "pay_p1" (payments reused_state) = Some COMPLETED ∧
  (fun r => (ref_payment_id r, ref_status r)) <$>
    refunds (state_of (create_refund "r2" 600 "pay_p1" None "" reused_state))
      !! "ref_r1" = Some ("pay_p1", COMPLETED) ∧
  (fun r => (ref_payment_id r, ref_status r)) <$>
    refunds (state_of (create_refund "r2" 600 "pay_p1" None "" reused_state))
      !! "ref_r2" = Some ("pay_p1", COMPLETED).
Proof. repeat split; vm_compute; reflexivity. Qed.

Lemma or_dec_nonzero d b : dec_coeff d ≠ 0 -> or_dec (Some d) b = d.
Proof.
  intros Hd. unfold or_dec, dec_truthy.
  destruct (Z.eqb_spec (dec_coeff d) 0); [contradiction | reflexivity].
Qed.

(** X9. [create_refund] does not compare the amount it is given with the
    payment: on a COMPLETED payment, any amount other than zero, also one
    above the payment's amount or below zero, is the amount the provider is
    asked to refund, in the payment's currency, and the amount of the
    refund returned. *)
Theorem refund_amount_unchecked s tok now pid d reason payment :
  odict.get pid (payments s) = Some payment ->
  pay_status payment = COMPLETED ->
  dec_coeff d ≠ 0 ->
  let run := create_refund tok now pid (Some d) reason s in
  refund_calls (trace_of run) = [(pid, mkMoney d (currency (pay_amount payment)))] ∧
  (∀ r, result_of run = Ret (Some r) ->
        ref_amount r = mkMoney d (currency (pay_amount payment)) ∧
        refunds (state_of run) !! ref_id r = Some r).
Proof.
  intros Hp Hst Hd run. subst run. split.
  - rewrite (create_refund_calls _ _ _ _ _ _ _ Hp Hst), (or_dec_nonzero _ _ Hd).
    reflexivity.
  - intros r. rewrite (create_refund_run _ _ _ _ _ _ _ Hp Hst). cbn zeta.
    rewrite (or_dec_nonzero _ _ Hd).
    destruct (refund (provider s) pid _) as [[[] ?]|?]; cbn -[String.append];
      intros [= <-]; (split; [reflexivity|]); cbn -[String.append];
      apply lookup_insert_eq.
Qed.

(** The theorem at a refund of 500.00 for Alice's payment of 99.99 USD. *)
Lemma refund_amount_unchecked_witness :
  refund_calls (trace_of (create_refund "r1" 300 "pay_p1" (Some (mkDecimal 50000 (-2)))
                            "" (paid_state (MockPaymentProvider "71c5"))))
  = [("pay_p1", mkMoney (mkDecimal 50000 (-2)) USD)].
Proof.
  destruct (refund_amount_unchecked (paid_state (MockPaymentProvider "71c5"))
              "r1" 300 "pay_p1" (mkDecimal 50000 (-2)) "" (alice_payment "71c5"))
    as [Hcalls _]; [vm_compute; reflexivity | reflexivity | discriminate |].
  exact Hcalls.
Defined.

(** ** The registry of hooks *)

Lemma init_hooks_keys provider token ev :
  is_Some (hooks (init provider token) !! ev) ↔ ev ∈ event_names.
Proof.
  split.
  - intros [hs Hev].
    change ((list_to_map ((fun e => (e, [])) <$> event_names)
               : gmap string (list Handler)) !! ev = Some hs) in Hev.
    apply elem_of_list_to_map_2 in Hev.
    apply list_elem_of_fmap in Hev as (e & [= -> _] & He). exact He.
  - intros Hev. rewrite (init_hooks _ _ _ Hev). eauto.
Qed.

Lemma step_hooks_keys s s' ev :
  step s s' -> is_Some (hooks s' !! ev) ↔ is_Some (hooks s !! ev).
Proof.
  intros Hstep. destruct Hstep; try (frame; reflexivity).
  rewrite add_hook_lookup. destruct (hooks s !! ev); [|reflexivity].
  split; eauto.
Qed.

Lemma reachable_hooks_keys s ev :
  reachable s -> is_Some (hooks s !! ev) ↔ ev ∈ event_names.
Proof.
  induction 1 as [provider token | s s' _ IH Hstep].
  - apply init_hooks_keys.
  - rewrite (step_hooks_keys _ _ _ Hstep). exact IH.
Qed.

(** X10. In every state the processor reaches, the events that have a list
    of handlers are the seven of [__init__] and no other. So [add_hook]
    with any other name changes nothing, and the handler it was given is
    not called by an emission under that name. *)
Theorem unknown_event_ignored s ev :
  reachable s ->
  (is_Some (hooks s !! ev) ↔ ev ∈ event_names) ∧
  (ev ∉ event_names ->
   ∀ h data,
     add_hook ev h s = (Ret tt, s, []) ∧
     _emit ev data (state_of (add_hook ev h s)) = (Ret tt, s, [EvEmit ev data])).
Proof.
  intros Hs. pose proof (reachable_hooks_keys s ev Hs) as Hkeys.
  split; [exact Hkeys|]. intros Hev h data.
  assert (Hnone : hooks s !! ev = None).
  { destruct (hooks s !! ev) eqn:Hl; [|reflexivity].
    exfalso. apply Hev, Hkeys. eauto. }
  rewrite add_hook_run, Hnone. split; [reflexivity|].
  cbn [state_of fst snd]. rewrite emit_run. unfold emit_effects.
  rewrite Hnone. reflexivity.
Qed.

(** The theorem at an event that is not one of the seven. *)
Lemma unknown_event_ignored_witness :
  add_hook "payment.settled" noisy (alice_state (MockPaymentProvider "71c5"))
  = (Ret tt, alice_state (MockPaymentProvider "71c5"), []).
Proof.
  destruct (unknown_event_ignored (alice_state (MockPaymentProvider "71c5"))
              "payment.settled" (reachable_alice_state _)) as [_ Hadd].
  apply (Hadd (ltac:(vm_compute; intros H;
                     repeat (apply elem_of_cons in H as [H|H]; [discriminate H|]);
                     apply elem_of_nil in H; exact H))
           noisy (EPayment (alice_payment "71c5"))).
Defined.

(** ** Subscriptions *)

Lemma trial_end_of_None now days t :
  trial_end_of now days = Ret t -> (t = None ↔ days = 0).
Proof.
  unfold trial_end_of. destruct (decide (days = 0)) as [Hz|Hz].
  - intros [= <-]. tauto.
  - destruct (dt.plus_days now days); [|discriminate].
    intros [= <-]. split; [discriminate | contradiction].
Qed.

(** X11. [create_subscription] returns [None] exactly when the customer or
    the plan is unknown. When it returns a subscription, this one is ACTIVE,
    starts at the clock read for the record, ends its period where
    [_calculate_period_end] says from the clock read in the body and the
    plan's interval and count, has a trial end exactly when the plan's
    [trial_days] is not zero (a negative number of days included), is in
    the store under its id, and [subscription.created] is emitted once,
    with it. Whenever no subscription is returned, for an unknown reference
    or a date out of range, the processor is left as it was and nothing is
    emitted. *)
Theorem create_subscription_spec s tok now t_start cid pid :
  let run := create_subscription tok now t_start cid pid s in
  (result_of run = Ret None ↔ customers s !! cid = None ∨ plans s !! pid = None) ∧
  (∀ sub, result_of run = Ret (Some sub) ->
     ∃ plan pe,
       plans s !! pid = Some plan ∧
       sub_id sub = "sub_" +:+ tok ∧
       sub_customer_id sub = cid ∧ sub_plan_id sub = pid ∧
       sub_status sub = SUB_ACTIVE ∧
       current_period_start sub = t_start ∧
       period_end_of now (interval plan) (interval_count plan) = Ret pe ∧
       current_period_end sub = Some pe ∧
       trial_end_of now (trial_days plan) = Ret (trial_end sub) ∧
       (trial_end sub = None ↔ trial_days plan = 0) ∧
       cancelled_at sub = None ∧
       subscriptions (state_of run) !! sub_id sub = Some sub ∧
       emitted "subscription.created" (trace_of run) = [ESubscription sub]) ∧
  ((∀ sub, result_of run ≠ Ret (Some sub)) -> state_of run = s ∧ trace_of run = []).
Proof.
  intros run. subst run. rewrite create_subscription_run.
  destruct (customers s !! cid) as [c|] eqn:Hc;
    [|split; [split; auto|]; split; [intros sub [=] | auto]].
  destruct (plans s !! pid) as [plan|] eqn:Hpl;
    [|split; [split; auto|]; split; [intros sub [=] | auto]].
  destruct (period_end_of now (interval plan) (interval_count plan)) as [pe|e] eqn:Hpe.
  2:{ split; [split; [intros [=] | intros [[=]|[=]]]|].
      split; [intros sub [=] | auto]. }
  destruct (trial_end_of now (trial_days plan)) as [tr|e] eqn:Htr.
  2:{ split; [split; [intros [=] | intros [[=]|[=]]]|].
      split; [intros sub [=] | auto]. }
  cbn zeta. cbn [result_of state_of trace_of fst snd].
  split; [split; [intros [=] | intros [[=]|[=]]]|].
  split.
  - intros sub [= <-]. exists plan, pe. cbn -[String.append emit_effects emitted].
    repeat (split; [reflexivity|]).
    split; [exact Hpe|]. split; [reflexivity|].
    split; [exact Htr|]. split; [apply (trial_end_of_None _ _ _ Htr)|].
    split; [reflexivity|]. split; [apply lookup_insert_eq|].
    rewrite emitted_emit_effects. reflexivity.
  - intros Hno. exfalso. eapply Hno. reflexivity.
Qed.

(** X12. [cancel_subscription] returns [False] exactly when the id is
    unknown, and then changes and emits nothing. On a known subscription it
    returns [True], sets the status to CANCELLED and [cancelled_at] to the
    clock and nothing else, leaves every other subscription alone, and
    emits [subscription.cancelled] once. Cancelling a subscription that is
    cancelled already does all of it again: it returns [True], emits the
    event again, and moves [cancelled_at] to the later clock. *)
Theorem cancel_subscription_spec s now sid :
  let run := cancel_subscription now sid s in
  (result_of run = Ret false ↔ subscriptions s !! sid = None) ∧
  (subscriptions s !! sid = None -> run = (Ret false, s, [])) ∧
  (∀ sub, subscriptions s !! sid = Some sub ->
     result_of run = Ret true ∧
     (∃ sub', subscriptions (state_of run) !! sid = Some sub' ∧
              sub_status sub' = SUB_CANCELLED ∧ cancelled_at sub' = Some now ∧
              sub' = set_cancelled now sub ∧
              emitted "subscription.cancelled" (trace_of run) = [ESubscription sub']) ∧
     (∀ k, k ≠ sid -> subscriptions (state_of run) !! k = subscriptions s !! k) ∧
     ∀ now',
       result_of (cancel_subscription now' sid (state_of run)) = Ret true ∧
       subscriptions (state_of (cancel_subscription now' sid (state_of run))) !! sid
         = Some (set_cancelled now' sub) ∧
       emitted "subscription.cancelled"
         (trace_of (cancel_subscription now' sid (state_of run)))
         = [ESubscription (set_cancelled now' sub)]).
Proof.
  intros run. subst run. rewrite cancel_subscription_run.
  destruct (subscriptions s !! sid) as [sub|] eqn:Hsub.
  - split; [split; discriminate|]. split; [discriminate|].
    intros ? [= <-]. cbn [result_of state_of trace_of fst snd].
    split; [reflexivity|]. split.
    { eexists. split; [cbn; apply lookup_insert_eq|].
      split; [reflexivity|]. split; [reflexivity|]. split; [reflexivity|].
      rewrite emitted_emit_effects. reflexivity. }
    split.
    { intros k Hk. cbn. apply lookup_insert_ne. congruence. }
    intros now'. rewrite cancel_subscription_run. cbn [subscriptions with_subscriptions].
    rewrite lookup_insert_eq. cbn [result_of state_of trace_of fst snd].
    split; [reflexivity|]. split; [cbn; apply lookup_insert_eq|].
    rewrite emitted_emit_effects. reflexivity.
  - split; [split; reflexivity|]. split; [reflexivity|]. intros sub [=].
Qed.

(** ** What a payment touches, and in which order *)

Lemma emissions_emit_effects s event data :
  emissions (emit_effects s event data) = [event].
Proof.
  unfold emit_effects. cbn. f_equal.
  induction (default [] (hooks s !! event)) as [|h hs IH]; [reflexivity|].
  cbn [handler_effects]. destruct (handler_call h data); cbn; exact IH.
Qed.

(** X13. Whatever its arguments and its outcome, [create_payment] changes
    nothing in the processor but the entry of the payment store under the
    id of the new payment; and [create_refund] changes nothing but the
    refund store and the entry of the payment it refunds. Customers, plans,
    subscriptions, hooks and the provider are never touched by either. *)
Theorem money_operations_frame s :
  (∀ tok t1 t2 cid amt cur pm desc,
     let s' := state_of (create_payment tok t1 t2 cid amt cur pm desc s) in
     customers s' = customers s ∧ refunds s' = refunds s ∧ plans s' = plans s ∧
     subscriptions s' = subscriptions s ∧ hooks s' = hooks s ∧
     provider s' = provider s ∧
     ∀ k, k ≠ "pay_" +:+ tok ->
          odict.get k (payments s') = odict.get k (payments s)) ∧
  (∀ tok now pid amt reason,
     let s' := state_of (create_refund tok now pid amt reason s) in
     customers s' = customers s ∧ plans s' = plans s ∧
     subscriptions s' = subscriptions s ∧ hooks s' = hooks s ∧
     provider s' = provider s ∧
     (∀ k, k ≠ "ref_" +:+ tok -> refunds s' !! k = refunds s !! k) ∧
     ∀ k, k ≠ pid -> odict.get k (payments s') = odict.get k (payments s)).
Proof.
  split.
  - intros tok t1 t2 cid amt cur pm desc s'. subst s'.
    repeat (split; [frame; reflexivity|]).
    intros k. apply create_payment_other_payments.
  - intros tok now pid amt reason s'. subst s'.
    repeat (split; [frame; reflexivity|]).
    split; [|intros k; apply create_refund_other_payments].
    intros k Hk.
    destruct (create_refund_cases s tok now pid amt reason)
      as [-> | (p & Hp & Hst)]; [reflexivity|].
    rewrite (create_refund_run _ _ _ _ _ _ _ Hp Hst). cbn zeta.
    destruct (refund (provider s) pid _) as [[[] result]|e];
      cbn -[String.append]; rewrite ?lookup_insert_ne by congruence; reflexivity.
Qed.

(** X14. In a [create_payment] that passes validation, [payment.created]
    is emitted first, with the payment still PENDING and without metadata,
    and its handlers have all run before the provider is asked the charge.
    After the charge comes one event, [payment.completed] or
    [payment.failed] as the provider answers; when the provider raises
    there is none: the exception goes to the caller and the payment stays
    PROCESSING in the store. *)
Theorem create_payment_event_order s tok t1 t2 cid amt cur pm desc c d :
  customers s !! cid = Some c ->
  or_str pm (default_payment_method c) = Some d ->
  d ≠ "" ->
  let run := create_payment tok t1 t2 cid amt cur pm desc s in
  let p0 := mkPayment ("pay_" +:+ tok) cid (mkMoney amt cur) PENDING (Some d)
              desc ∅ t1 None VNone in
  ∃ after,
    trace_of run = emit_effects s "payment.created" (EPayment p0) ++
                   EvCharge c (mkMoney amt cur) d :: after ∧
    charged after = [] ∧
    match charge (provider s) c (mkMoney amt cur) d with
    | Ret (true, _) => emissions after = ["payment.completed"]
    | Ret (false, _) => emissions after = ["payment.failed"]
    | Raise e =>
        after = [] ∧ result_of run = Raise e ∧
        odict.get ("pay_" +:+ tok) (payments (state_of run))
        = Some (set_pay_status PROCESSING p0)
    end.
Proof.
  intros Hc Hd Hne run p0. subst run p0.
  rewrite (create_payment_run _ _ _ _ _ _ _ _ _ _ _ Hc Hd Hne). cbn zeta.
  destruct (charge (provider s) c (mkMoney amt cur) d) as [[[] result]|e];
    cbn [result_of state_of trace_of fst snd].
  - eexists. split; [rewrite <- app_assoc; reflexivity|].
    split; [apply charged_emit_effects | apply emissions_emit_effects].
  - eexists. split; [rewrite <- app_assoc; reflexivity|].
    split; [apply charged_emit_effects | apply emissions_emit_effects].
  - exists []. split; [reflexivity|]. split; [reflexivity|].
    split; [reflexivity|]. split; [reflexivity|].
    cbn -[String.append]. apply odict_get_set_eq.
Qed.

(** The theorem at Alice's payment with a provider that refuses: the event
    after the charge is [payment.failed]. *)
Lemma create_payment_event_order_witness :
  ∃ after,
    trace_of (create_payment "p1" 200 201 "cus_a1" price USD None "Pro Plan"
                (alice_state (failing_provider ∅)))
    = emit_effects (alice_state (failing_provider ∅)) "payment.created"
        (EPayment (mkPayment "pay_p1" "cus_a1" (mkMoney price USD) PENDING
                     (Some "pm_m1") "Pro Plan" ∅ 200 None VNone)) ++
      EvCharge alice (mkMoney price USD) "pm_m1" :: after ∧
    emissions after = ["payment.failed"].
Proof.
  destruct (create_payment_event_order (alice_state (failing_provider ∅))
              "p1" 200 201 "cus_a1" price USD None "Pro Plan" alice "pm_m1")
    as (after & Htrace & _ & Hafter);
    [vm_compute; reflexivity | reflexivity | discriminate |].
  exists after. split; [exact Htrace | exact Hafter].
Defined.

(** ** Customers *)

Lemma prefixed_inj (a b : string) : "cus_" +:+ a = "cus_" +:+ b -> a = b.
Proof. cbn. intros [= H]. exact H. Qed.

(** X15. [create_customer] never fails and emits nothing; the customer it
    returns has no payment method and no default, and [get_customer] with
    its id gives it back, while every other id is looked up as before. The
    email is not checked against the customers there are: a second customer
    created with the same email gets in beside the first. *)
Theorem create_customer_lookup s tok now email name metadata :
  let run := create_customer tok now email name metadata s in
  ∃ c, run = (Ret c, state_of run, []) ∧
       c = mkCustomer ("cus_" +:+ tok) email name [] None metadata now ∧
       get_customer (cus_id c) (state_of run) = (Ret (Some c), state_of run, []) ∧
       (∀ k, k ≠ cus_id c ->
             result_of (get_customer k (state_of run)) = result_of (get_customer k s)) ∧
       (∀ tok' now' name' metadata',
          tok' ≠ tok ->
          let run' := create_customer tok' now' email name' metadata' (state_of run) in
          ∃ c', result_of run' = Ret c' ∧ cus_email c' = cus_email c ∧
                cus_id c' ≠ cus_id c ∧
                result_of (get_customer (cus_id c) (state_of run')) = Ret (Some c) ∧
                result_of (get_customer (cus_id c') (state_of run')) = Ret (Some c')).
Proof.
  intros run. subst run. rewrite create_customer_run.
  eexists. split; [reflexivity|]. split; [reflexivity|].
  cbn [state_of fst snd cus_id]. unfold get_customer, gets.
  cbn [result_of fst customers with_customers].
  split; [rewrite lookup_insert_eq; reflexivity|].
  split; [intros k Hk; rewrite lookup_insert_ne by congruence; reflexivity|].
  intros tok' now' name' metadata' Htok.
  rewrite !create_customer_run. eexists. split; [reflexivity|].
  cbn [state_of fst snd cus_id cus_email customers with_customers].
  split; [reflexivity|].
  assert (Hne : "cus_" +:+ tok' ≠ "cus_" +:+ tok).
  { intros H. apply Htok, prefixed_inj, H. }
  split; [exact Hne|].
  split; [rewrite lookup_insert_ne by exact Hne|]; rewrite lookup_insert_eq;
    reflexivity.
Qed.

(** X16. [add_payment_method] returns [None] exactly when the customer is
    unknown, and then changes nothing. On a known customer it returns the
    new method, appended to the customer's methods; the customer's id,
    email, name, metadata and creation time stay as they were, and so does
    every other customer. It emits nothing and touches no other store. *)
Theorem add_payment_method_spec s tok cid ty last_four brand m y metadata :
  let run := add_payment_method tok cid ty last_four brand m y metadata s in
  (result_of run = Ret None ↔ customers s !! cid = None) ∧
  (customers s !! cid = None -> run = (Ret None, s, [])) ∧
  trace_of run = [] ∧
  (∀ k, k ≠ cid -> customers (state_of run) !! k = customers s !! k) ∧
  (payments (state_of run) = payments s ∧ refunds (state_of run) = refunds s ∧
   plans (state_of run) = plans s ∧ subscriptions (state_of run) = subscriptions s ∧
   hooks (state_of run) = hooks s) ∧
  (∀ c, customers s !! cid = Some c ->
     ∃ c',
       result_of run = Ret (Some (mkPaymentMethodInfo ("pm_" +:+ tok) ty last_four
                                    brand m y metadata)) ∧
       customers (state_of run) !! cid = Some c' ∧
       payment_methods c' =
         payment_methods c ++
         [mkPaymentMethodInfo ("pm_" +:+ tok) ty last_four brand m y metadata] ∧
       cus_id c' = cus_id c ∧ cus_email c' = cus_email c ∧ cus_name c' = cus_name c ∧
       cus_metadata c' = cus_metadata c ∧ cus_created_at c' = cus_created_at c).
Proof.
  intros run. subst run.
  split; [|split; [|split; [|split; [|split]]]];
    try (repeat split; frame; reflexivity);
    rewrite add_payment_method_run;
    destruct (customers s !! cid) as [c|] eqn:Hc; cbn zeta;
    cbn [result_of state_of trace_of fst snd];
    try reflexivity; try discriminate.
  - split; discriminate.
  - split; reflexivity.
  - intros k Hk. cbn. apply lookup_insert_ne. congruence.
  - intros c0 [= <-]. eexists. split; [reflexivity|].
    split; [cbn -[String.append]; apply lookup_insert_eq|]. repeat split.
Qed.

(** ** The provider *)

Lemma step_provider s s' : step s s' -> provider s' = provider s.
Proof. intros Hstep. destruct Hstep; frame; reflexivity. Qed.

Lemma rtc_step_provider s s' : rtc step s s' -> provider s' = provider s.
Proof.
  induction 1 as [s | s1 s2 s3 Hstep _ IH]; [reflexivity|].
  rewrite IH. apply step_provider, Hstep.
Qed.

(** X17. No operation replaces the provider. So a processor built without
    one keeps the mock provider, and then every [create_payment] that
    passes validation returns a COMPLETED payment whose metadata has a
    [provider_id], and every [create_refund] on a COMPLETED payment returns
    a COMPLETED refund. *)
Theorem mock_provider_completes token s :
  rtc step (init None token) s ->
  provider s = MockPaymentProvider token ∧
  (∀ tok t1 t2 cid amt cur pm desc,
     validated s cid pm ->
     ∃ p, result_of (create_payment tok t1 t2 cid amt cur pm desc s) = Ret p ∧
          pay_status p = COMPLETED ∧ is_Some (pay_metadata p !! "provider_id")) ∧
  (∀ tok now pid amt reason payment,
     odict.get pid (payments s) = Some payment ->
     pay_status payment = COMPLETED ->
     ∃ r, result_of (create_refund tok now pid amt reason s) = Ret (Some r) ∧
          ref_status r = COMPLETED).
Proof.
  intros Hs. pose proof (rtc_step_provider _ _ Hs) as Hprov.
  change (provider (init None token)) with (MockPaymentProvider token) in Hprov.
  split; [exact Hprov|]. split.
  - intros tok t1 t2 cid amt cur pm desc (c & Hc & Ht).
    destruct (truthy_str_inv _ Ht) as (d & Hd & Hne).
    rewrite (create_payment_run _ _ _ _ _ _ _ _ _ _ _ Hc Hd Hne), Hprov. cbn zeta.
    cbn [charge MockPaymentProvider result_of fst].
    eexists. split; [reflexivity|]. split; [reflexivity|].
    cbn. exists (VStr token). apply lookup_union_Some_l, lookup_singleton_eq.
  - intros tok now pid amt reason payment Hp Hst.
    rewrite (create_refund_run _ _ _ _ _ _ _ Hp Hst), Hprov. cbn zeta.
    cbn [refund MockPaymentProvider result_of fst].
    eexists. split; reflexivity.
Qed.

(** The theorem at Bob, in a processor built without a provider, paying
    with a method id passed by hand. *)
Lemma mock_provider_completes_witness :
  ∃ p, result_of (create_payment "p7" 200 201 "cus_b2" price EUR
                    (Some "pm_nowhere") "" bob_state) = Ret p ∧
       pay_status p = COMPLETED.
Proof.
  destruct (mock_provider_completes "09af" bob_state) as (_ & Hpay & _).
  { apply rtc_once. apply step_create_customer. }
  destruct (Hpay "p7" 200 201 "cus_b2" price EUR (Some "pm_nowhere") EmptyString)
    as (p & Hp & Hst & _).
  { exists bob. split; [vm_compute; reflexivity | reflexivity]. }
  exists p. split; assumption.
Defined.

(** ** Plans and the dates they give *)

Lemma plus_days_Ret start n t :
  dt.plus_days start n = Ret t -> t = start + n * dt.us_per_day.
Proof.
  unfold dt.plus_days, dt.days, dt.add.
  destruct (Z.abs n <=? dt.max_days); [|discriminate].
  destruct ((0 <=? start + n * dt.us_per_day) &&
            (start + n * dt.us_per_day <=? dt.max_datetime)); [|discriminate].
  intros [= <-]. reflexivity.
Qed.

Lemma period_end_of_days start ival count :
  period_end_of start ival count = dt.plus_days start (days_per ival * count).
Proof.
  unfold period_end_of, days_per. repeat case_decide; try reflexivity.
  rewrite Z.mul_1_l. reflexivity.
Qed.

(** X18. [create_plan] stores the plan as it is given, with any interval
    count and any number of trial days, zero and negative ones included,
    and a known customer can subscribe to it at once. The subscription's
    period ends [count] times 1, 7, 30 or 365 days (for daily, weekly,
    monthly, and anything else) from the clock read in the body, so at or
    before it when [count] is not positive; its trial ends [trial_days]
    days from that clock, so before it when [trial_days] is negative, and
    is unset when [trial_days] is zero. With all these dates in the range
    of a datetime the subscription is made. *)
Theorem plan_values_unchecked s tokp name amt cur ival count days feats metadata
    tok now t_start cid c :
  customers s !! cid = Some c ->
  let plan := mkPlan ("plan_" +:+ tokp) name (mkMoney amt cur) ival count days
                feats metadata in
  let s1 := state_of (create_plan tokp name amt cur ival count days feats metadata s) in
  let run := create_subscription tok now t_start cid ("plan_" +:+ tokp) s1 in
  create_plan tokp name amt cur ival count days feats metadata s = (Ret plan, s1, []) ∧
  plans s1 !! ("plan_" +:+ tokp) = Some plan ∧
  result_of run ≠ Ret None ∧
  (∀ sub, result_of run = Ret (Some sub) ->
     current_period_end sub = Some (now + days_per ival * count * dt.us_per_day) ∧
     trial_end sub = if decide (days = 0) then None
                     else Some (now + days * dt.us_per_day)) ∧
  (Z.abs (days_per ival * count) <= dt.max_days ->
   0 <= now + days_per ival * count * dt.us_per_day <= dt.max_datetime ->
   Z.abs days <= dt.max_days ->
   0 <= now + days * dt.us_per_day <= dt.max_datetime ->
   ∃ sub, result_of run = Ret (Some sub)).
Proof.
  intros Hc plan s1 run. subst run s1 plan.
  split; [reflexivity|].
  assert (Hpl : plans (state_of (create_plan tokp name amt cur ival count days
                                   feats metadata s)) !! ("plan_" +:+ tokp)
                = Some (mkPlan ("plan_" +:+ tokp) name (mkMoney amt cur) ival count
                          days feats metadata)).
  { cbn -[String.append]. apply lookup_insert_eq. }
  split; [exact Hpl|].
  rewrite create_subscription_run, Hpl.
  assert (Hcus : customers (state_of (create_plan tokp name amt cur ival count days
                                        feats metadata s)) !! cid = Some c)
    by exact Hc.
  rewrite Hcus. cbn [interval interval_count trial_days].
  rewrite period_end_of_days. unfold trial_end_of.
  split; [|split].
  - destruct (dt.plus_days now (days_per ival * count)); [|discriminate].
    destruct (decide (days = 0)); [discriminate|].
    destruct (dt.plus_days now days); discriminate.
  - intros sub.
    destruct (dt.plus_days now (days_per ival * count)) as [pe|] eqn:Hpe;
      [|discriminate].
    apply plus_days_Ret in Hpe.
    destruct (decide (days = 0)) as [Hz|Hz].
    + cbn zeta. cbn [result_of fst]. intros [= <-]. cbn. rewrite Hpe. split; reflexivity.
    + destruct (dt.plus_days now days) as [t|] eqn:Ht; [|discriminate].
      apply plus_days_Ret in Ht.
      cbn zeta. cbn [result_of fst]. intros [= <-]. cbn. rewrite Hpe, Ht.
      split; reflexivity.
  - intros H1 H2 H3 H4.
    rewrite (plus_days_in_range _ _ H1) by lia.
    destruct (decide (days = 0)); [eexists; reflexivity|].
    rewrite (plus_days_in_range _ _ H3 H4). eexists. reflexivity.
Qed.

(** The theorem at a daily plan with a count of -1 and -3 days of trial:
    Alice's subscription ends its period one day before it is made, and its
    trial three days before. *)
Lemma plan_values_unchecked_witness :
  ∃ sub,
    result_of (create_subscription "s9" 63000000000000000 63000000000000001
                 "cus_a1" "plan_neg"
                 (state_of (create_plan "neg" "Backwards" price USD DAILY (-1) (-3) [] ∅
                              (alice_state (MockPaymentProvider "71c5")))))
    = Ret (Some sub) ∧
    current_period_end sub = Some (63000000000000000 - dt.us_per_day) ∧
    trial_end sub = Some (63000000000000000 - 3 * dt.us_per_day).
Proof.
  destruct (plan_values_unchecked (alice_state (MockPaymentProvider "71c5"))
              "neg" "Backwards" price USD DAILY (-1) (-3) [] ∅
              "s9" 63000000000000000 63000000000000001 "cus_a1" alice)
    as (_ & _ & _ & Hdates & Hmade); [vm_compute; reflexivity|].
  destruct Hmade as [sub Hsub];
    [vm_compute; discriminate
    |split; vm_compute; discriminate
    |vm_compute; discriminate
    |split; vm_compute; discriminate|].
  exists sub. split; [exact Hsub|].
  destruct (Hdates sub Hsub) as [Hpe Htr].
  split; [rewrite Hpe | rewrite Htr]; reflexivity.
Defined.
